(** * Next-prayer resolution and countdown of the prayer-times page

    A shallow embedding of the countdown core of the repository: the
    time utilities ([formatTime], [formatTimeRemaining]), the next-prayer
    scan of [updateNextPrayer], the one-second tick [updateCountdown] and
    the ticker restart [startCountdown].  The repository carries the code
    twice: the single-file script (part_000) and the module version
    under js/ (ui.js with the utilities of part_001).
    Both are embedded, in [Module Script] and [Module Ui]; what the two
    share word for word is embedded once.

    Conventions.
    - A JavaScript string is a Rocq [string]; characters outside ASCII
      are held in UTF-8, so the Arabic period markers are two bytes each.
      The code only splits on ' ' and ':' and compares whole markers,
      which reads the same on UTF-8 bytes as on UTF-16 code units.
    - A JavaScript number is [JS.number]: an integer or NaN.  Fractions
      and the infinities have no value in this type, so [JS.Number] and
      [JS.parseInt] are modelled on decimal integer literals, which is
      what the prayer-time API sends and what [formatTime] writes.  On
      the other numeric strings of the language ("1.5", "1e1", "0x10",
      "Infinity") [JS.Number] is NaN although the language reads a
      number; the grammar of those strings is [numeric] below, and the
      properties that speak of fields that do not parse are stated with
      it, not with [JS.Number].
    - [undefined] (and [null]) is [None].
    - The wall clock is an argument: each function that runs [new Date()]
      takes the reading as a [Date]. *)

From Stdlib Require Import ZArith String Ascii List Lia DecimalString.
From stdpp Require Import base strings gmap list.

Open Scope Z_scope.
Open Scope string_scope.

(** ** The fragment of JavaScript the code relies on *)

Module JS.

(** *** Completions: a value or a thrown exception *)

Inductive completion (A : Type) : Type :=
| Normal (a : A)
| Throw (error : string).
Arguments Normal {A} a.
Arguments Throw {A} error.

Definition bind {A B} (c : completion A) (k : A -> completion B) : completion B :=
  match c with
  | Normal a => k a
  | Throw e => Throw e
  end.

Definition TypeError : string := "TypeError".

(** *** Numbers *)

Inductive number : Type :=
| Int (z : Z)
| NaN.

Definition add (a b : number) : number :=
  match a, b with
  | Int x, Int y => Int (x + y)
  | _, _ => NaN
  end.

Definition sub (a b : number) : number :=
  match a, b with
  | Int x, Int y => Int (x - y)
  | _, _ => NaN
  end.

Definition mul (a b : number) : number :=
  match a, b with
  | Int x, Int y => Int (x * y)
  | _, _ => NaN
  end.

(** [a % b]: the remainder takes the sign of the dividend. *)
Definition rem (a b : number) : number :=
  match a, b with
  | Int x, Int y => if (y =? 0)%Z then NaN else Int (Z.rem x y)
  | _, _ => NaN
  end.

(** [Math.floor(a / b)] on integers. *)
Definition floor_div (a b : number) : number :=
  match a, b with
  | Int x, Int y => if (y =? 0)%Z then NaN else Int (x / y)
  | _, _ => NaN
  end.

(** Comparisons: every comparison with NaN is false. *)
Definition lt (a b : number) : bool :=
  match a, b with
  | Int x, Int y => (x <? y)%Z
  | _, _ => false
  end.

Definition gt (a b : number) : bool := lt b a.

Definition le (a b : number) : bool :=
  match a, b with
  | Int x, Int y => (x <=? y)%Z
  | _, _ => false
  end.

Definition ge (a b : number) : bool := le b a.

(** [a === b] on numbers. *)
Definition strict_eq (a b : number) : bool :=
  match a, b with
  | Int x, Int y => (x =? y)%Z
  | _, _ => false
  end.

Definition isNaN (a : number) : bool :=
  match a with
  | NaN => true
  | Int _ => false
  end.

(** Truthiness of a number: 0 and NaN are falsy. *)
Definition truthy (a : number) : bool :=
  match a with
  | Int z => negb (z =? 0)%Z
  | NaN => false
  end.

(** [a || b] on numbers. *)
Definition or_else (a b : number) : number := if truthy a then a else b.

(** ToNumber of a possibly undefined number: [undefined] becomes NaN. *)
Definition ToNumber (v : option number) : number :=
  match v with
  | Some n => n
  | None => NaN
  end.

(** *** Strings *)

(** [s.split(sep)] for a one-character separator.  The result always
    has at least one element: [''.split(' ')] is [['']]. *)
Fixpoint split (sep : ascii) (s : string) : list string :=
  match s with
  | EmptyString => [""]
  | String c r =>
      if Ascii.eqb c sep then "" :: split sep r
      else match split sep r with
           | x :: xs => String c x :: xs
           | [] => [String c ""]
           end
  end.

(** [s.padStart(n, '0')]. *)
Fixpoint zeros (n : nat) : string :=
  match n with
  | O => ""
  | S k => String "0" (zeros k)
  end.

Definition padStart (n : nat) (s : string) : string :=
  zeros (n - String.length s) ++ s.

(** [n.toString()] and the conversion of a number in a template. *)
Definition toString (n : number) : string :=
  match n with
  | Int z => NilZero.string_of_int (Z.to_int z)
  | NaN => "NaN"
  end.

(** White space skipped by the numeric conversions and by [trim]: the
    white space and line terminators of the language.  Six of them are
    ASCII characters; the others take two or three bytes in UTF-8:
    U+00A0, U+1680, U+2000 to U+200A, U+2028, U+2029, U+202F, U+205F,
    U+3000 and U+FEFF. *)
Definition is_ws (c : ascii) : bool :=
  let n := nat_of_ascii c in
  ((9 <=? n)%nat && (n <=? 13)%nat) || (n =? 32)%nat.

Definition is_ws2 (c1 c2 : ascii) : bool :=
  (nat_of_ascii c1 =? 194)%nat && (nat_of_ascii c2 =? 160)%nat.

Definition is_ws3 (c1 c2 c3 : ascii) : bool :=
  let a := nat_of_ascii c1 in
  let b := nat_of_ascii c2 in
  let c := nat_of_ascii c3 in
  ((a =? 225)%nat && (b =? 154)%nat && (c =? 128)%nat)
  || ((a =? 226)%nat && (b =? 128)%nat
      && (((128 <=? c)%nat && (c <=? 138)%nat)
          || (c =? 168)%nat || (c =? 169)%nat || (c =? 175)%nat))
  || ((a =? 226)%nat && (b =? 129)%nat && (c =? 159)%nat)
  || ((a =? 227)%nat && (b =? 128)%nat && (c =? 128)%nat)
  || ((a =? 239)%nat && (b =? 187)%nat && (c =? 191)%nat).

Fixpoint trimStart (s : string) : string :=
  match s with
  | String c1 r1 =>
      if is_ws c1 then trimStart r1
      else
        match r1 with
        | String c2 r2 =>
            if is_ws2 c1 c2 then trimStart r2
            else
              match r2 with
              | String c3 r3 => if is_ws3 c1 c2 c3 then trimStart r3 else s
              | EmptyString => s
              end
        | EmptyString => s
        end
  | EmptyString => ""
  end.

(** What is left of [s] once the white space at its end is dropped: a
    character is kept unless only white space follows from it on. *)
Fixpoint trimEnd (s : string) : string :=
  match s with
  | String c r => if String.eqb (trimStart s) "" then "" else String c (trimEnd r)
  | EmptyString => ""
  end.

Definition trim (s : string) : string := trimEnd (trimStart s).

Definition digit (c : ascii) : option Z :=
  let n := nat_of_ascii c in
  if (48 <=? n)%nat && (n <=? 57)%nat then Some (Z.of_nat n - 48) else None.

(** The value of [s] when every character is a decimal digit. *)
Fixpoint all_digits (s : string) (acc : Z) : option Z :=
  match s with
  | EmptyString => Some acc
  | String c r =>
      match digit c with
      | Some d => all_digits r (10 * acc + d)
      | None => None
      end
  end.

(** The value of the longest prefix of decimal digits of [s]; [acc] is
    [None] until a digit has been read. *)
Fixpoint digit_prefix (s : string) (acc : option Z) : option Z :=
  match s with
  | EmptyString => acc
  | String c r =>
      match digit c with
      | Some d => digit_prefix r (Some (10 * default 0 acc + d))
      | None => acc
      end
  end.

Definition unsigned_literal (s : string) : number :=
  match s with
  | EmptyString => NaN
  | _ => match all_digits s 0 with
         | Some z => Int z
         | None => NaN
         end
  end.

Definition neg (a : number) : number :=
  match a with
  | Int z => Int (- z)
  | NaN => NaN
  end.

(** [Number(s)]: white space is trimmed, the empty string is 0, a
    signed run of decimal digits is its value, the rest is NaN.  The
    rest holds the strings the language does not read as a number and,
    for want of a value in [number], the numeric strings that are not
    decimal integers. *)
Definition Number (s : string) : number :=
  match trim s with
  | EmptyString => Int 0
  | String "+" r => unsigned_literal r
  | String "-" r => neg (unsigned_literal r)
  | t => unsigned_literal t
  end.

(** [parseInt(v, 10)]: leading white space and a sign are skipped and
    the longest run of digits is read; with no digit the result is NaN.
    [undefined] is first converted to the string "undefined". *)
Definition parseInt (v : option string) : number :=
  let s := match v with
           | Some s => trimStart s
           | None => "undefined"
           end in
  let of_digits r := match digit_prefix r None with
                     | Some z => Int z
                     | None => NaN
                     end in
  match s with
  | String "+" r => of_digits r
  | String "-" r => neg (of_digits r)
  | _ => of_digits s
  end.

(** Truthiness of a possibly undefined string: [undefined] and the
    empty string are falsy. *)
Definition truthy_str (v : option string) : bool :=
  match v with
  | Some s => negb (String.eqb s "")
  | None => false
  end.

(** [v === s] for a possibly undefined string [v]. *)
Definition str_eq (v : option string) (s : string) : bool :=
  match v with
  | Some t => String.eqb t s
  | None => false
  end.

End JS.

#[global] Instance completion_ret : MRet JS.completion := @JS.Normal.
#[global] Instance completion_bind : MBind JS.completion := fun A B k c => JS.bind c k.

Import JS.

(** ** The wall clock *)

(** The three readings the code takes from [new Date()]. *)
Record Date : Type := mkDate {
  getHours : Z;
  getMinutes : Z;
  getSeconds : Z
}.

Definition valid_date (d : Date) : Prop :=
  0 <= getHours d < 24 /\ 0 <= getMinutes d < 60 /\ 0 <= getSeconds d < 60.

(** ** Utilities (part_001; repeated word for word in the script) *)

(** The period markers: U+0635 for the morning, U+0645 for the evening. *)
Definition AM : string := "ص".
Definition PM : string := "م".

(** [formatTime(time24)].  [minutes.toString()] throws a TypeError when
    [time24] holds no ':' and [minutes] is undefined. *)
Definition formatTime (time24 : string) : completion string :=
  let parts := map Number (split ":" time24) in
  let hours := ToNumber (parts !! 0%nat) in
  let minutes := parts !! 1%nat in
  let period := if ge hours (Int 12) then PM else AM in
  let hours12 := or_else (rem hours (Int 12)) (Int 12) in
  match minutes with
  | None => Throw TypeError
  | Some minutes =>
      Normal (toString hours12 ++ ":" ++ padStart 2 (toString minutes) ++ " " ++ period)
  end.

(** [formatTimeRemaining(seconds)], the version of part_001 that joins
    the three fields with ':'. *)
Definition formatTimeRemaining (seconds : number) : string :=
  let hours := floor_div seconds (Int 3600) in
  let minutes := floor_div (rem seconds (Int 3600)) (Int 60) in
  let secs := rem seconds (Int 60) in
  String.concat ":" [padStart 2 (toString hours);
                     padStart 2 (toString minutes);
                     padStart 2 (toString secs)].

(** [getPrayerArabicName(prayer)]. *)
Definition prayerNames : gmap string string :=
  <["fajr" := "الفجر"]> (<["sunrise" := "الشروق"]> (<["dhuhr" := "الظهر"]>
  (<["asr" := "العصر"]> (<["maghrib" := "المغرب"]> (<["isha" := "العشاء"]> ∅))))).

Definition getPrayerArabicName (prayer : string) : string :=
  match prayerNames !! prayer with
  | Some name => if String.eqb name "" then prayer else name
  | None => prayer
  end.

(** ** The next-prayer scan (the same lines in ui.js and in the script) *)

Definition prayerOrder : list string :=
  ["fajr"; "sunrise"; "dhuhr"; "asr"; "maghrib"; "isha"].

(** The first element of a destructured array, on which a method is
    called next: calling a method on [undefined] throws. *)
Definition receiver {A} (v : option A) : completion A :=
  match v with
  | Some a => Normal a
  | None => Throw TypeError
  end.

(** The body of the loop down to the conversion to the 24-hour clock:
    [hours] and [minutes] of a schedule entry after the two period
    adjustments. *)
Definition convertTo24Hour (entry : string) : completion (number * option number) :=
  let parts := split " " entry in
  let period := parts !! 1%nat in
  time ← receiver (parts !! 0%nat);
  let fields := map Number (split ":" time) in
  let hours := ToNumber (fields !! 0%nat) in
  let minutes := fields !! 1%nat in
  let hours := if str_eq period PM && lt hours (Int 12) then add hours (Int 12) else hours in
  let hours := if str_eq period AM && strict_eq hours (Int 12) then Int 0 else hours in
  mret (hours, minutes).

Definition prayerTimeInMinutes (entry : string) : completion number :=
  '(hours, minutes) ← convertTo24Hour entry;
  mret (add (mul hours (Int 60)) (ToNumber minutes)).

(** The [for ... of] loop over [prayerOrder]: the value of
    [nextPrayerName] when the loop ends, [None] for [null]. *)
Fixpoint findNextPrayer (prayerTimes : gmap string string) (currentTime : Z)
    (order : list string) : completion (option string) :=
  match order with
  | [] => mret None
  | prayer :: rest =>
      if negb (truthy_str (prayerTimes !! prayer)) then
        findNextPrayer prayerTimes currentTime rest
      else
        t ← prayerTimeInMinutes (default "" (prayerTimes !! prayer));
        if gt t (Int currentTime) then mret (Some prayer)
        else findNextPrayer prayerTimes currentTime rest
  end.

(** [if (!nextPrayerName) nextPrayerName = 'fajr']. *)
Definition orFajr (nextPrayerName : option string) : string :=
  if truthy_str nextPrayerName then default "" nextPrayerName else "fajr".

(** [arr.indexOf(x)]: the first position of [x], or -1. *)
Fixpoint indexOf (arr : list string) (x : string) : Z :=
  match arr with
  | [] => -1
  | y :: rest =>
      if String.eqb y x then 0
      else let i := indexOf rest x in if (i <? 0)%Z then -1 else i + 1
  end.

(** [arr[i]]: undefined outside the array. *)
Definition at_index (arr : list string) (i : Z) : option string :=
  if (i <? 0)%Z then None else arr !! Z.to_nat i.

(** The prayer to highlight, from the name of the next one. *)
Definition currentPrayerName (nextPrayerName : string) : option string :=
  let currentPrayerIndex := indexOf prayerOrder nextPrayerName in
  if (currentPrayerIndex =? 0)%Z then Some "isha"
  else at_index prayerOrder (currentPrayerIndex - 1).

(** ** Program state *)

(** The object stored in [nextPrayer]. *)
Record NextPrayer : Type := mkNextPrayer {
  name : string;
  displayName : string
}.

(** The functions handed to the timers. *)
Inductive Callback : Type :=
| cbUpdateCountdown
| cbUpdateDateTime.

Record Timer : Type := mkTimer {
  callback : Callback;
  delay : Z;
  repeating : bool
}.

(** What the code does to its surroundings, newest first.  [EvTick]
    marks an entry into [updateCountdown]. *)
Inductive Event : Type :=
| EvTick
| EvSetInterval (id : positive) (cb : Callback) (ms : Z)
| EvSetTimeout (id : positive) (cb : Callback) (ms : Z)
| EvClearInterval (id : positive)
| EvPlay
| EvConsoleError (msg : string).

(** The module-level variables, the page elements the functions write
    and the timers of the window.  The page itself (index.html) is not
    among the sources: it is taken to hold the countdown element, the
    two next-prayer labels and one card and one time slot per prayer.
    Timer handles are positive integers, so a handle is always truthy. *)
Record State : Type := mkState {
  prayerTimes : gmap string string;
  nextPrayer : option NextPrayer;
  countdownInterval : option positive;
  isAudioEnabled : bool;
  countdownText : string;
  nextPrayerNameText : string;
  nextPrayerName2Text : string;
  timeTexts : gmap string string;
  activeCards : gset string;
  timers : gmap positive Timer;
  nextHandle : positive;
  trace : list Event
}.

Definition set_prayerTimes (v : gmap string string) (st : State) : State :=
  mkState v (nextPrayer st) (countdownInterval st) (isAudioEnabled st)
    (countdownText st) (nextPrayerNameText st) (nextPrayerName2Text st)
    (timeTexts st) (activeCards st) (timers st) (nextHandle st) (trace st).

Definition set_nextPrayer (v : option NextPrayer) (st : State) : State :=
  mkState (prayerTimes st) v (countdownInterval st) (isAudioEnabled st)
    (countdownText st) (nextPrayerNameText st) (nextPrayerName2Text st)
    (timeTexts st) (activeCards st) (timers st) (nextHandle st) (trace st).

Definition set_countdownInterval (v : option positive) (st : State) : State :=
  mkState (prayerTimes st) (nextPrayer st) v (isAudioEnabled st)
    (countdownText st) (nextPrayerNameText st) (nextPrayerName2Text st)
    (timeTexts st) (activeCards st) (timers st) (nextHandle st) (trace st).

Definition set_isAudioEnabled (v : bool) (st : State) : State :=
  mkState (prayerTimes st) (nextPrayer st) (countdownInterval st) v
    (countdownText st) (nextPrayerNameText st) (nextPrayerName2Text st)
    (timeTexts st) (activeCards st) (timers st) (nextHandle st) (trace st).

Definition set_countdownText (v : string) (st : State) : State :=
  mkState (prayerTimes st) (nextPrayer st) (countdownInterval st) (isAudioEnabled st)
    v (nextPrayerNameText st) (nextPrayerName2Text st)
    (timeTexts st) (activeCards st) (timers st) (nextHandle st) (trace st).

Definition set_nextPrayerNameTexts (v : string) (st : State) : State :=
  mkState (prayerTimes st) (nextPrayer st) (countdownInterval st) (isAudioEnabled st)
    (countdownText st) v v
    (timeTexts st) (activeCards st) (timers st) (nextHandle st) (trace st).

Definition set_timeTexts (v : gmap string string) (st : State) : State :=
  mkState (prayerTimes st) (nextPrayer st) (countdownInterval st) (isAudioEnabled st)
    (countdownText st) (nextPrayerNameText st) (nextPrayerName2Text st)
    v (activeCards st) (timers st) (nextHandle st) (trace st).

Definition set_activeCards (v : gset string) (st : State) : State :=
  mkState (prayerTimes st) (nextPrayer st) (countdownInterval st) (isAudioEnabled st)
    (countdownText st) (nextPrayerNameText st) (nextPrayerName2Text st)
    (timeTexts st) v (timers st) (nextHandle st) (trace st).

Definition set_timers (v : gmap positive Timer) (h : positive) (st : State) : State :=
  mkState (prayerTimes st) (nextPrayer st) (countdownInterval st) (isAudioEnabled st)
    (countdownText st) (nextPrayerNameText st) (nextPrayerName2Text st)
    (timeTexts st) (activeCards st) v h (trace st).

Definition log (e : Event) (st : State) : State :=
  mkState (prayerTimes st) (nextPrayer st) (countdownInterval st) (isAudioEnabled st)
    (countdownText st) (nextPrayerNameText st) (nextPrayerName2Text st)
    (timeTexts st) (activeCards st) (timers st) (nextHandle st) (e :: trace st).

(** The state when the page has loaded and no function has run. *)
Definition initial : State :=
  mkState ∅ None None false "" "" "" ∅ ∅ ∅ 1%positive [].

(** *** The timers of the window *)

(** [setInterval(cb, ms)] and [setTimeout(cb, ms)] draw their handles
    from one counter. *)
Definition setInterval (cb : Callback) (ms : Z) (st : State) : positive * State :=
  let id := nextHandle st in
  (id, log (EvSetInterval id cb ms)
         (set_timers (<[id := mkTimer cb ms true]> (timers st)) (Pos.succ id) st)).

Definition setTimeout (cb : Callback) (ms : Z) (st : State) : positive * State :=
  let id := nextHandle st in
  (id, log (EvSetTimeout id cb ms)
         (set_timers (<[id := mkTimer cb ms false]> (timers st)) (Pos.succ id) st)).

Definition clearInterval (id : positive) (st : State) : State :=
  log (EvClearInterval id) (set_timers (delete id (timers st)) (nextHandle st) st).

(** The repeating one-second timers that run [updateCountdown]. *)
Definition is_ticker (t : Timer) : bool :=
  match callback t with
  | cbUpdateCountdown => repeating t && (delay t =? 1000)%Z
  | cbUpdateDateTime => false
  end.

Definition tickers (st : State) : gmap positive Timer :=
  filter (fun kv => is_ticker kv.2 = true) (timers st).

(** The number of [play()] calls on the athan audio so far. *)
Definition is_play (e : Event) : bool :=
  match e with
  | EvPlay => true
  | _ => false
  end.

Fixpoint count (p : Event -> bool) (l : list Event) : nat :=
  match l with
  | [] => O
  | e :: rest => if p e then S (count p rest) else count p rest
  end.

Definition plays (st : State) : nat := count is_play (trace st).

(** The events added to the trace between [before] and [after], oldest
    first. *)
Definition since (before after : State) : list Event :=
  rev (take (length (trace after) - length (trace before)) (trace after)).

(** Entering the timer window: ticks, schedulings and cancellations. *)
Definition is_timing (e : Event) : bool :=
  match e with
  | EvTick | EvSetInterval _ _ _ | EvSetTimeout _ _ _ | EvClearInterval _ => true
  | EvPlay | EvConsoleError _ => false
  end.

(** ** Code shared by the two versions *)

(** [updatePrayerTimes(timings)]: the six API strings are formatted and
    stored, then written to the time slots of the page.  A missing
    timing makes [formatTime] call [split] on [undefined], which throws
    before anything is stored. *)
Definition updatePrayerTimes (timings : gmap string string) (st : State)
    : completion State :=
  let field key := t ← receiver (timings !! key); formatTime t in
  fajr ← field "Fajr";
  sunrise ← field "Sunrise";
  dhuhr ← field "Dhuhr";
  asr ← field "Asr";
  maghrib ← field "Maghrib";
  isha ← field "Isha";
  let times : gmap string string :=
    <["fajr" := fajr]> (<["sunrise" := sunrise]> (<["dhuhr" := dhuhr]>
    (<["asr" := asr]> (<["maghrib" := maghrib]> (<["isha" := isha]> ∅))))) in
  let st := set_prayerTimes times st in
  mret (set_timeTexts (times ∪ timeTexts st) st).

(** The lines of [updateCountdown] that read the entry: [inr] holds
    [hours] and [minutes] after the conversion to the 24-hour clock,
    [inl time] is the exit taken when one of them is NaN. *)
Definition parseTarget (prayerTimeStr : string) : completion (string + number * number) :=
  let parts := split " " prayerTimeStr in
  let period := parts !! 1%nat in
  time ← receiver (parts !! 0%nat);
  let fields := split ":" time in
  let hours := parseInt (fields !! 0%nat) in
  let minutes := parseInt (fields !! 1%nat) in
  if isNaN hours || isNaN minutes then mret (inl time)
  else
    let hours := if str_eq period PM && lt hours (Int 12) then add hours (Int 12) else hours in
    let hours := if str_eq period AM && strict_eq hours (Int 12) then Int 0 else hours in
    mret (inr (hours, minutes)).

(** The lines that follow, down to the next-day wrap: the final value of
    the local [timeRemaining], the one handed to [formatTimeRemaining]. *)
Definition wrapRemaining (hours minutes : number) (currentTime : Z) : number :=
  let prayerTimeInSeconds := add (mul hours (Int 3600)) (mul minutes (Int 60)) in
  let timeRemaining := sub prayerTimeInSeconds (Int currentTime) in
  if lt timeRemaining (Int 0) then add timeRemaining (Int (24 * 3600))
  else timeRemaining.

Definition timeRemaining (prayerTimeStr : string) (currentTime : Z)
    : completion (string + number) :=
  target ← parseTarget prayerTimeStr;
  match target with
  | inl time => mret (inl time)
  | inr (hours, minutes) => mret (inr (wrapRemaining hours minutes currentTime))
  end.

Definition UNAVAILABLE : string := "--:--:--".

Section Ticker.

(** [startCountdown] reads the same in both versions; each calls the
    [updateCountdown] of its own file. *)
Variable updateCountdown : Date -> State -> bool * State.

Definition startCountdown (now : Date) (st : State) : State :=
  let st := match countdownInterval st with
            | Some id => clearInterval id st
            | None => st
            end in
  let st := (updateCountdown now st).2 in
  let '(id, st) := setInterval cbUpdateCountdown 1000 st in
  set_countdownInterval (Some id) st.

End Ticker.

(** ** The single-file script (part_000) *)

Module Script.

(** The script builds the string with a template instead of [join]. *)
Definition formatTimeRemaining (seconds : number) : string :=
  let hours := floor_div seconds (Int 3600) in
  let minutes := floor_div (rem seconds (Int 3600)) (Int 60) in
  let secs := rem seconds (Int 60) in
  padStart 2 (toString hours) ++ ":" ++ padStart 2 (toString minutes)
    ++ ":" ++ padStart 2 (toString secs).

Definition playAthan (st : State) : State :=
  if isAudioEnabled st then log EvPlay st else st.

Definition updateCountdown (now : Date) (st : State) : bool * State :=
  let st := log EvTick st in
  let currentTime := getHours now * 3600 + getMinutes now * 60 + getSeconds now in
  let tried : completion (bool * State) :=
    match nextPrayer st with
    | None => mret (false, set_countdownText UNAVAILABLE st)
    | Some np =>
        let entry := prayerTimes st !! name np in
        if negb (truthy_str entry) then mret (false, set_countdownText UNAVAILABLE st)
        else
          let prayerTimeStr := default "" entry in
          if negb (truthy_str (Some prayerTimeStr)) then
            mret (false, log (EvConsoleError "Invalid prayer time format") st)
          else
            r ← timeRemaining prayerTimeStr currentTime;
            match r with
            | inl time => mret (false, log (EvConsoleError ("Invalid time format: " ++ time)) st)
            | inr timeRemaining =>
                let st := set_countdownText (formatTimeRemaining timeRemaining) st in
                let st := if le timeRemaining (Int 60) && gt timeRemaining (Int 0)
                             && isAudioEnabled st
                          then playAthan st else st in
                mret (true, st)
            end
    end in
  match tried with
  | Normal r => r
  | Throw _ =>
      (false, set_countdownText UNAVAILABLE
                (log (EvConsoleError "Error in updateCountdown:") st))
  end.

Definition startCountdown := startCountdown updateCountdown.

(** [updateNextPrayer()].  The script shows a loading text and runs
    [updateCountdown] once from a 100 ms timeout. *)
Definition updateNextPrayer (now : Date) (st : State) : completion (NextPrayer * State) :=
  let currentTime := getHours now * 60 + getMinutes now in
  let st := set_activeCards ∅ st in
  found ← findNextPrayer (prayerTimes st) currentTime prayerOrder;
  let nextPrayerName := orFajr found in
  let st := match currentPrayerName nextPrayerName with
            | Some current => set_activeCards ({[current]} ∪ activeCards st) st
            | None => st
            end in
  let np := mkNextPrayer nextPrayerName (getPrayerArabicName nextPrayerName) in
  let st := set_nextPrayer (Some np) st in
  let st := set_nextPrayerNameTexts (displayName np) st in
  let st := set_countdownText "جاري التحديث..." st in
  let st := (setTimeout cbUpdateCountdown 100 st).2 in
  mret (np, st).

End Script.

(** ** The module version (js/ui.js) *)

Module Ui.

(** The tick of ui.js: the same lines without the audio check and
    without the second test of the entry. *)
Definition updateCountdown (now : Date) (st : State) : bool * State :=
  let st := log EvTick st in
  let currentTime := getHours now * 3600 + getMinutes now * 60 + getSeconds now in
  let tried : completion (bool * State) :=
    match nextPrayer st with
    | None => mret (false, set_countdownText UNAVAILABLE st)
    | Some np =>
        let entry := prayerTimes st !! name np in
        if negb (truthy_str entry) then mret (false, set_countdownText UNAVAILABLE st)
        else
          let prayerTimeStr := default "" entry in
          r ← timeRemaining prayerTimeStr currentTime;
          match r with
          | inl time => mret (false, log (EvConsoleError ("Invalid time format: " ++ time)) st)
          | inr timeRemaining =>
              mret (true, set_countdownText (formatTimeRemaining timeRemaining) st)
          end
    end in
  match tried with
  | Normal r => r
  | Throw _ =>
      (false, set_countdownText UNAVAILABLE
                (log (EvConsoleError "Error in updateCountdown:") st))
  end.

Definition startCountdown := startCountdown updateCountdown.

(** [updateNextPrayer()], which ends by restarting the countdown. *)
Definition updateNextPrayer (now : Date) (st : State) : completion (NextPrayer * State) :=
  let currentTime := getHours now * 60 + getMinutes now in
  let st := set_activeCards ∅ st in
  found ← findNextPrayer (prayerTimes st) currentTime prayerOrder;
  let nextPrayerName := orFajr found in
  let st := match currentPrayerName nextPrayerName with
            | Some current => set_activeCards ({[current]} ∪ activeCards st) st
            | None => st
            end in
  let np := mkNextPrayer nextPrayerName (getPrayerArabicName nextPrayerName) in
  let st := set_nextPrayer (Some np) st in
  let st := set_nextPrayerNameTexts (displayName np) st in
  let st := startCountdown now st in
  mret (np, st).

End Ui.

(** ** Day schedules as the API delivers them *)

Record TimeOfDay : Type := mkTime {
  hour : Z;
  minute : Z
}.

Definition valid_time (t : TimeOfDay) : Prop :=
  0 <= hour t < 24 /\ 0 <= minute t < 60.

Definition minutesOf (t : TimeOfDay) : Z := hour t * 60 + minute t.

Definition secondsOf (t : TimeOfDay) : Z := hour t * 3600 + minute t * 60.

(** The 24-hour string "HH:MM" of the prayer-time API. *)
Definition HHMM (t : TimeOfDay) : string :=
  padStart 2 (toString (Int (hour t))) ++ ":" ++ padStart 2 (toString (Int (minute t))).

(** The entry [formatTime] stores for the time [t]. *)
Definition displayOf (t : TimeOfDay) : string :=
  match formatTime (HHMM t) with
  | Normal s => s
  | Throw _ => ""
  end.

Record DaySchedule : Type := mkDay {
  fajr : TimeOfDay;
  sunrise : TimeOfDay;
  dhuhr : TimeOfDay;
  asr : TimeOfDay;
  maghrib : TimeOfDay;
  isha : TimeOfDay
}.

(** The six times in the fixed order. *)
Definition times (d : DaySchedule) : list TimeOfDay :=
  [fajr d; sunrise d; dhuhr d; asr d; maghrib d; isha d].

Definition timingsOf (d : DaySchedule) : gmap string string :=
  <["Fajr" := HHMM (fajr d)]> (<["Sunrise" := HHMM (sunrise d)]>
  (<["Dhuhr" := HHMM (dhuhr d)]> (<["Asr" := HHMM (asr d)]>
  (<["Maghrib" := HHMM (maghrib d)]> (<["Isha" := HHMM (isha d)]> ∅))))).

(** The value of [prayerTimes] after [updatePrayerTimes] has stored [d]. *)
Definition scheduleOf (d : DaySchedule) : gmap string string :=
  <["fajr" := displayOf (fajr d)]> (<["sunrise" := displayOf (sunrise d)]>
  (<["dhuhr" := displayOf (dhuhr d)]> (<["asr" := displayOf (asr d)]>
  (<["maghrib" := displayOf (maghrib d)]> (<["isha" := displayOf (isha d)]> ∅))))).

(** Non-decreasing, and strictly increasing, lists of times. *)
Fixpoint ascending (strict : bool) (ts : list TimeOfDay) : Prop :=
  match ts with
  | t :: (u :: _) as rest =>
      (if strict then minutesOf t < minutesOf u else minutesOf t <= minutesOf u)
      /\ ascending strict rest
  | _ => True
  end.

(** A well-formed schedule: six valid times, non-decreasing. *)
Definition well_formed (d : DaySchedule) : Prop :=
  Forall valid_time (times d) /\ ascending false (times d).

Definition strictly_increasing (d : DaySchedule) : Prop :=
  Forall valid_time (times d) /\ ascending true (times d).

(** Readings of the clock in minutes and in seconds since midnight. *)
Definition minuteOfDay (now : Date) : Z := getHours now * 60 + getMinutes now.
Definition secondOfDay (now : Date) : Z :=
  getHours now * 3600 + getMinutes now * 60 + getSeconds now.

(** What a run of [updateNextPrayer] resolved: it returned normally,
    stored and returned [next], and left exactly the card of [current]
    highlighted. *)
Definition resolved (r : completion (NextPrayer * State)) (next current : string) : Prop :=
  exists np st',
    r = Normal (np, st') /\ name np = next /\ nextPrayer st' = Some np
    /\ activeCards st' = {[ current ]}.

(** ** Notions used to state the properties *)

(** Every valid time of day. *)
Definition clock_range : list TimeOfDay :=
  h ← seqZ 0 24; m ← seqZ 0 60; [mkTime h m].

(** [t] is formatted to a non-empty entry that both readers of the
    code, the scan and the tick, turn back into [t]. *)
Definition reads_back (t : TimeOfDay) : bool :=
  match formatTime (HHMM t) with
  | Normal s =>
      match convertTo24Hour s, parseTarget s with
      | Normal (Int h, Some (Int m)), Normal (inr (Int h', Int m')) =>
          negb (String.eqb s "")
          && (h =? hour t)%Z && (m =? minute t)%Z
          && (h' =? hour t)%Z && (m' =? minute t)%Z
      | _, _ => false
      end
  | Throw _ => false
  end.

(** The two decimal digits of a number below 100. *)
Definition digit_char (d : Z) : ascii := ascii_of_nat (48 + Z.to_nat d).

Definition two_digits (n : Z) : string :=
  String (digit_char (n / 10)) (String (digit_char (n mod 10)) "").

(** The entry of [t] shows the hour on the 12-hour dial (12 for the
    hours 0 and 12), a colon, the two-digit minute, a space and the
    marker of the half of the day. *)
Definition shown (t : TimeOfDay) : string :=
  let dial := if (hour t mod 12 =? 0)%Z then 12 else hour t mod 12 in
  toString (Int dial) ++ ":" ++ two_digits (minute t) ++ " "
  ++ (if (hour t <? 12)%Z then AM else PM).

Definition shown_ok (t : TimeOfDay) : bool := String.eqb (displayOf t) (shown t).

(** The two-digit field [padStart] produces for [n]. *)
Definition padded_ok (n : Z) : bool :=
  String.eqb (padStart 2 (toString (Int n))) (two_digits n).

(** HH:MM:SS with two digits per field. *)
Definition HHMMSS (seconds : Z) : string :=
  two_digits (seconds / 3600) ++ ":" ++ two_digits (seconds mod 3600 / 60)
  ++ ":" ++ two_digits (seconds mod 60).

(** The seconds from the reading [now] to the time [t], counted into
    the next day when [t] has passed. *)
Definition secondsUntil (t : TimeOfDay) (now : Date) : Z :=
  let diff := secondsOf t - secondOfDay now in
  if (diff <? 0)%Z then diff + 86400 else diff.

(** The test the scan applies to each prayer: the entry is there and
    its minutes exceed the current minute of the day. *)
Definition upcoming (pt : gmap string string) (currentTime : Z) (prayer : string) : bool :=
  truthy_str (pt !! prayer)
  && match prayerTimeInMinutes (default "" (pt !! prayer)) with
     | Normal t => gt t (Int currentTime)
     | Throw _ => false
     end.

(** The first prayer of a schedule whose time is strictly after the
    minute [cur] of the day, if there is one. *)
Definition firstAfter (d : DaySchedule) (cur : Z) : option string :=
  if (cur <? minutesOf (fajr d))%Z then Some "fajr"
  else if (cur <? minutesOf (sunrise d))%Z then Some "sunrise"
  else if (cur <? minutesOf (dhuhr d))%Z then Some "dhuhr"
  else if (cur <? minutesOf (asr d))%Z then Some "asr"
  else if (cur <? minutesOf (maghrib d))%Z then Some "maghrib"
  else if (cur <? minutesOf (isha d))%Z then Some "isha"
  else None.

(** The six prayers of a schedule with their times. *)
Definition entries (d : DaySchedule) : list (string * TimeOfDay) :=
  [("fajr", fajr d); ("sunrise", sunrise d); ("dhuhr", dhuhr d);
   ("asr", asr d); ("maghrib", maghrib d); ("isha", isha d)].

(** *** Strings the language reads as a number

    [Number(s)] is NaN exactly when [s], with the white space around it
    dropped, is neither empty nor a numeric literal.  The literals are
    written out here after the grammar of the language, without
    reference to [JS.Number]: an optional sign before [Infinity] or
    before decimal digits with an optional fraction and an optional
    exponent, or an unsigned binary, octal or hexadecimal integer with
    its prefix. *)

Definition is_digit (c : ascii) : bool :=
  let n := nat_of_ascii c in (48 <=? n)%nat && (n <=? 57)%nat.

Definition is_hex_digit (c : ascii) : bool :=
  let n := nat_of_ascii c in
  is_digit c || ((65 <=? n)%nat && (n <=? 70)%nat) || ((97 <=? n)%nat && (n <=? 102)%nat).

Definition is_octal_digit (c : ascii) : bool :=
  let n := nat_of_ascii c in (48 <=? n)%nat && (n <=? 55)%nat.

Definition is_binary_digit (c : ascii) : bool :=
  let n := nat_of_ascii c in (48 <=? n)%nat && (n <=? 49)%nat.

(** [s] begins with a decimal digit. *)
Definition digit_first (s : string) : bool :=
  match s with
  | String c _ => is_digit c
  | EmptyString => false
  end.

(** [s] without the decimal digits it begins with. *)
Fixpoint skip_digits (s : string) : string :=
  match s with
  | String c r => if is_digit c then skip_digits r else s
  | EmptyString => ""
  end.

(** [s] is not empty and only holds characters of the class [cls]. *)
Fixpoint all_of (cls : ascii -> bool) (s : string) : bool :=
  match s with
  | String c EmptyString => cls c
  | String c r => cls c && all_of cls r
  | EmptyString => false
  end.

Definition without_sign (s : string) : string :=
  match s with
  | String "+" r => r
  | String "-" r => r
  | _ => s
  end.

(** Nothing, or an exponent part that runs to the end of the string. *)
Definition exponent_or_end (s : string) : bool :=
  match s with
  | EmptyString => true
  | String "e" r | String "E" r =>
      digit_first (without_sign r) && String.eqb (skip_digits (without_sign r)) ""
  | _ => false
  end.

Definition unsigned_decimal_literal (s : string) : bool :=
  String.eqb s "Infinity"
  || match s with
     | String "." r => digit_first r && exponent_or_end (skip_digits r)
     | _ =>
         digit_first s
         && match skip_digits s with
            | String "." r => exponent_or_end (skip_digits r)
            | r => exponent_or_end r
            end
     end.

Definition radix_literal (s : string) : bool :=
  match s with
  | String "0" (String "b" r) | String "0" (String "B" r) => all_of is_binary_digit r
  | String "0" (String "o" r) | String "0" (String "O" r) => all_of is_octal_digit r
  | String "0" (String "x" r) | String "0" (String "X" r) => all_of is_hex_digit r
  | _ => false
  end.

Definition numeric_literal (s : string) : bool :=
  radix_literal s || unsigned_decimal_literal (without_sign s).

(** [Number(s)] is a number, not NaN. *)
Definition numeric (s : string) : bool :=
  String.eqb (trim s) "" || numeric_literal (trim s).

(** *** The fields of a stored entry *)

(** [s] up to its first [c]. *)
Fixpoint before (c : ascii) (s : string) : string :=
  match s with
  | String x r => if Ascii.eqb x c then "" else String x (before c r)
  | EmptyString => ""
  end.

(** [s] past its first [c], when it holds one. *)
Fixpoint after (c : ascii) (s : string) : option string :=
  match s with
  | String x r => if Ascii.eqb x c then Some r else after c r
  | EmptyString => None
  end.

(** The clock part of an entry runs to its first space; the hour field
    is the clock part up to its first colon, the minute field what lies
    between the first colon and the second, if there is a colon. *)
Definition hourField (entry : string) : string :=
  before ":" (before " " entry).

Definition minuteField (entry : string) : option string :=
  before ":" <$> after ":" (before " " entry).

(** An entry the scan has to skip: absent, empty, with an hour field
    that is not a number, or with a minute field that is not there or
    not a number.  An entry whose fields are numbers out of range, such
    as "3:99", is not of this kind. *)
Definition skipped (pt : gmap string string) (prayer : string) : bool :=
  match pt !! prayer with
  | None => true
  | Some entry =>
      String.eqb entry ""
      || negb (numeric (hourField entry))
      || match minuteField entry with
         | Some field => negb (numeric field)
         | None => true
         end
  end.

(** The prayer before [prayer] in the fixed order, [isha] before [fajr]. *)
Definition predecessor (prayer : string) : option string :=
  match prayer with
  | "fajr" => Some "isha"
  | "sunrise" => Some "fajr"
  | "dhuhr" => Some "sunrise"
  | "asr" => Some "dhuhr"
  | "maghrib" => Some "asr"
  | "isha" => Some "maghrib"
  | _ => None
  end.

(** The prayer after [prayer] in the fixed order, [fajr] after [isha]. *)
Definition successor (prayer : string) : option string :=
  match prayer with
  | "fajr" => Some "sunrise"
  | "sunrise" => Some "dhuhr"
  | "dhuhr" => Some "asr"
  | "asr" => Some "maghrib"
  | "maghrib" => Some "isha"
  | "isha" => Some "fajr"
  | _ => None
  end.

(** The seconds left to the stored next prayer at the reading [now], when
    the tick gets as far as computing them. *)
Definition remaining (st : State) (now : Date) : option Z :=
  match nextPrayer st with
  | Some np =>
      if truthy_str (prayerTimes st !! name np) then
        match timeRemaining (default "" (prayerTimes st !! name np)) (secondOfDay now) with
        | Normal (inr (Int r)) => Some r
        | _ => None
        end
      else None
  | None => None
  end.

(** The reading falls in the last minute before the prayer: the seconds
    left are in (0, 60]. *)
Definition in_window (st : State) (now : Date) : bool :=
  match remaining st now with
  | Some r => (0 <? r)%Z && (r <=? 60)%Z
  | None => false
  end.

(** One tick per clock reading, in order. *)
Definition ticks (updateCountdown : Date -> State -> bool * State)
    (readings : list Date) (st : State) : State :=
  fold_left (fun st now => (updateCountdown now st).2) readings st.

(** One restart per clock reading, in order. *)
Definition starts (startCountdown : Date -> State -> State)
    (readings : list Date) (st : State) : State :=
  fold_left (fun st now => startCountdown now st) readings st.

(** The clock [n] seconds after midnight. *)
Definition clockAt (n : Z) : Date :=
  mkDate (n / 3600) ((n mod 3600) / 60) (n mod 60).

(** What a tick leaves alone: the variables, the highlight, the labels
    and the timers; and what it adds to the trace: one [EvTick], then
    events that touch no timer. *)
Definition tick_frame (before after : State) : Prop :=
  prayerTimes after = prayerTimes before
  /\ nextPrayer after = nextPrayer before
  /\ countdownInterval after = countdownInterval before
  /\ isAudioEnabled after = isAudioEnabled before
  /\ activeCards after = activeCards before
  /\ timers after = timers before
  /\ nextHandle after = nextHandle before
  /\ exists effects, trace after = (effects ++ EvTick :: trace before)%list
                     /\ List.filter is_timing effects = [].

(** The handle in [countdownInterval] names the only ticker. *)
Definition one_ticker (st : State) : Prop :=
  exists id, countdownInterval st = Some id
             /\ tickers st = {[ id := mkTimer cbUpdateCountdown 1000 true ]}.

(** No ticker runs that [countdownInterval] does not name. *)
Definition ticker_inv (st : State) : Prop :=
  forall id t, tickers st !! id = Some t -> countdownInterval st = Some id.

(** The ticks, schedulings and cancellations between two states, oldest
    first. *)
Definition timing_since (before after : State) : list Event :=
  List.filter is_timing (since before after).

(** The cancellation [startCountdown] begins with, if any. *)
Definition cancelled (st : State) : list Event :=
  match countdownInterval st with
  | Some id => [EvClearInterval id]
  | None => []
  end.

(** ** The page as a state machine *)

(** What can happen to the page: a timer fires the tick, the countdown
    is restarted, the next prayer is resolved again (on load, on every
    minute and after a search), new timings are stored, or [init]
    schedules the refresh of the date every minute. *)
Inductive Op : Type :=
| OpTick (now : Date)
| OpStart (now : Date)
| OpResolve (now : Date)
| OpStore (timings : gmap string string)
| OpEveryMinute.

(** One operation on a version given by its three functions.  A thrown
    exception leaves the state as it was: [updatePrayerTimes] throws
    before it assigns, and [updateNextPrayer] is shown not to throw. *)
Definition step (updateCountdown : Date -> State -> bool * State)
    (startCountdown : Date -> State -> State)
    (updateNextPrayer : Date -> State -> completion (NextPrayer * State))
    (op : Op) (st : State) : State :=
  match op with
  | OpTick now => (updateCountdown now st).2
  | OpStart now => startCountdown now st
  | OpResolve now =>
      match updateNextPrayer now st with
      | Normal (_, st') => st'
      | Throw _ => st
      end
  | OpStore timings =>
      match updatePrayerTimes timings st with
      | Normal st' => st'
      | Throw _ => st
      end
  | OpEveryMinute => (setInterval cbUpdateDateTime 60000 st).2
  end.

Definition Ui_step : Op -> State -> State :=
  step Ui.updateCountdown Ui.startCountdown Ui.updateNextPrayer.

Definition Script_step : Op -> State -> State :=
  step Script.updateCountdown Script.startCountdown Script.updateNextPrayer.

(** A run of operations, first to last. *)
Definition run (step : Op -> State -> State) (ops : list Op) (st : State) : State :=
  fold_left (fun st op => step op st) ops st.

(** ** Sample inputs *)

(** A day as the API reports it. *)
Definition sample_day : DaySchedule :=
  mkDay (mkTime 4 30) (mkTime 6 0) (mkTime 12 0) (mkTime 15 30) (mkTime 18 0) (mkTime 19 30).

(** The page once [updatePrayerTimes] has stored the day [d]. *)
Definition loaded (d : DaySchedule) : State :=
  match updatePrayerTimes (timingsOf d) initial with
  | Normal st => st
  | Throw _ => initial
  end.

(** The script with the audio switched on, the sample day stored and
    fajr (04:30) resolved as the next prayer at 04:28. *)
Definition before_fajr : State :=
  match Script.updateNextPrayer (mkDate 4 28 0) (set_isAudioEnabled true (loaded sample_day)) with
  | Normal (_, st) => st
  | Throw _ => initial
  end.

(** The 61 readings from 04:28:59 to 04:29:59: the seconds left to fajr
    run from 61 down to 1. *)
Definition last_minute : list Date := map clockAt (seqZ 16139 61).

(** A day on which fajr and sunrise are reported at the same minute. *)
Definition tied_day : DaySchedule :=
  mkDay (mkTime 5 0) (mkTime 5 0) (mkTime 12 0) (mkTime 15 30) (mkTime 18 0) (mkTime 19 30).

(** A day whose fajr is reported at 00:05. *)
Definition early_day : DaySchedule :=
  mkDay (mkTime 0 5) (mkTime 6 0) (mkTime 12 0) (mkTime 15 30) (mkTime 18 0) (mkTime 19 30).

(** ui.js with that day stored and fajr resolved as the next prayer at
    23:58. *)
Definition late_evening : State :=
  match Ui.updateNextPrayer (mkDate 23 58 0) (loaded early_day) with
  | Normal (_, st) => st
  | Throw _ => initial
  end.

(** The object [updateNextPrayer] stores when fajr is next. *)
Definition fajr_next : NextPrayer := mkNextPrayer "fajr" (getPrayerArabicName "fajr").

(** Timings whose minutes are followed by a time-zone suffix. *)
Definition suffixed_timings : gmap string string :=
  <["Fajr" := "04:30 (EET)"]> (<["Sunrise" := "06:00 (EET)"]>
  (<["Dhuhr" := "12:00 (EET)"]> (<["Asr" := "15:30 (EET)"]>
  (<["Maghrib" := "18:00 (EET)"]> (<["Isha" := "19:30 (EET)"]> ∅))))).

(** The script after it has stored those timings and resolved the next
    prayer at 04:00. *)
Definition suffixed_script : State :=
  match updatePrayerTimes suffixed_timings initial with
  | Normal st =>
      match Script.updateNextPrayer (mkDate 4 0 0) st with
      | Normal (_, st) => st
      | Throw _ => initial
      end
  | Throw _ => initial
  end.

(** Those timings stored over a countdown that still shows five
    seconds. *)
Definition suffixed_stored : State :=
  match updatePrayerTimes suffixed_timings (set_countdownText "00:00:05" initial) with
  | Normal st => st
  | Throw _ => initial
  end.

(** ui.js after that, once the next prayer is resolved at 04:00. *)
Definition suffixed_ui : State :=
  match Ui.updateNextPrayer (mkDate 4 0 0) suffixed_stored with
  | Normal (_, st) => st
  | Throw _ => initial
  end.

(** ** Notions for the further properties *)

(** [c] occurs in [s]. *)
Fixpoint has_char (c : ascii) (s : string) : bool :=
  match s with
  | EmptyString => false
  | String x r => Ascii.eqb x c || has_char c r
  end.

(** The keys of the timings object the API returns. *)
Definition apiKeys : list string :=
  ["Fajr"; "Sunrise"; "Dhuhr"; "Asr"; "Maghrib"; "Isha"].

(** A timing [formatTime] can work on: present and holding a colon. *)
Definition formattable (timings : gmap string string) (key : string) : bool :=
  match timings !! key with
  | Some t => has_char ":" t
  | None => false
  end.

(** The six entries are stored and none is empty. *)
Definition stocked (st : State) : Prop :=
  forall p, p ∈ prayerOrder -> truthy_str (prayerTimes st !! p) = true.

(** The stored next prayer, if any, is one of the six. *)
Definition named (st : State) : Prop :=
  forall np, nextPrayer st = Some np -> name np ∈ prayerOrder.

(** A countdown string read back field by field, the way the code
    reads a time: split on ':' and [Number] on each field. *)
Definition readDuration (s : string) : number :=
  let fields := map Number (split ":" s) in
  add (add (mul (ToNumber (fields !! 0%nat)) (Int 3600))
           (mul (ToNumber (fields !! 1%nat)) (Int 60)))
      (ToNumber (fields !! 2%nat)).

Definition reads_two_digits (n : Z) : bool :=
  negb (has_char ":" (two_digits n))
  && match Number (two_digits n) with
     | Int z => (z =? n)%Z
     | NaN => false
     end.

(** [parseInt] finds an integer at the head of [s]: after white space
    and an optional sign comes a decimal digit. *)
Definition integer_first (s : string) : bool :=
  digit_first (without_sign (trimStart s)).

(** The entry the tick has to read: the one stored for the next
    prayer, when there is a next prayer and its entry is not empty. *)
Definition targetEntry (st : State) : option string :=
  match nextPrayer st with
  | Some np =>
      match prayerTimes st !! name np with
      | Some entry => if String.eqb entry "" then None else Some entry
      | None => None
      end
  | None => None
  end.

(** The hour field and the minute field of [entry] both begin with an
    integer. *)
Definition readable (entry : string) : bool :=
  integer_first (hourField entry)
  && match minuteField entry with
     | Some field => integer_first field
     | None => false
     end.

(** A day the API reports with dhuhr and asr exchanged. *)
Definition swapped_day : DaySchedule :=
  mkDay (mkTime 4 30) (mkTime 6 0) (mkTime 15 30) (mkTime 12 0) (mkTime 18 0) (mkTime 19 30).

(** A day the API reports out of order: sunrise before fajr. *)
Definition unsorted_day : DaySchedule :=
  mkDay (mkTime 6 0) (mkTime 4 30) (mkTime 12 0) (mkTime 15 30) (mkTime 18 0) (mkTime 19 30).

(** ** Teardown of the countdown (ui.js) *)

Definition ReferenceError : string := "ReferenceError".

(** [cleanupUI()]: how the call ends and the state it leaves.  The
    ticker is cancelled and its handle dropped first.  The next line
    calls [getElements], which ui.js neither declares nor imports and
    which nothing else in the repository defines, so the call throws a
    ReferenceError there; the lines after it, which work on the
    listeners of the search controls, never run. *)
Definition cleanupUI (st : State) : completion unit * State :=
  let st := match countdownInterval st with
            | Some id => set_countdownInterval None (clearInterval id st)
            | None => st
            end in
  (Throw ReferenceError, st).

(** The operations of ui.js with the teardown among them; what the
    teardown throws goes to its caller, the state it leaves stays. *)
Inductive UiOp : Type :=
| UiDo (op : Op)
| UiCleanup.

Definition Ui_step_all (op : UiOp) (st : State) : State :=
  match op with
  | UiDo op => Ui_step op st
  | UiCleanup => (cleanupUI st).2
  end.

Definition run_all (ops : list UiOp) (st : State) : State :=
  fold_left (fun st op => Ui_step_all op st) ops st.

(** ** The notification popup *)

(** The [type] argument of [showNotification]. *)
Inductive Kind : Type :=
| KInfo
| KSuccess
| KWarning
| KError.

Definition is_error (k : Kind) : bool :=
  match k with
  | KError => true
  | _ => false
  end.

Record Style : Type := mkStyle {
  icon : string;
  color : string;
  title : string
}.

(** The table [notificationTypes] of ui.js. *)
Definition notificationTypes (k : Kind) : Style :=
  match k with
  | KError => mkStyle "fa-exclamation-circle" "#ff4444" "خطأ"
  | KSuccess => mkStyle "fa-check-circle" "#4CAF50" "نجاح"
  | KWarning => mkStyle "fa-exclamation-triangle" "#FFC107" "تحذير"
  | KInfo => mkStyle "fa-info-circle" "#2196F3" "معلومة"
  end.

(** The [options] argument, without its [onConfirm] callback. *)
Record Options : Type := mkOptions {
  optTitle : option string;
  optConfirmText : option string
}.

(** [v || d] on strings. *)
Definition or_str (v : option string) (d : string) : string :=
  if truthy_str v then default "" v else d.

(** The popup: what it shows, whether it is open, the variable
    [notificationTimeout] of ui.js and the pending timeouts that run
    [hideNotification].  Handles are drawn from a counter, like those of
    the countdown.  The click handlers of the buttons are not part of
    the record; a click is an operation below. *)
Record Popup : Type := mkPopup {
  message : string;
  iconClass : string;
  iconColor : string;
  popupTitle : string;
  actionText : string;
  active : bool;
  bodyOverflow : string;
  notificationTimeout : option positive;
  hideTimers : gset positive;
  nextTimer : positive
}.

Definition closed : Popup := mkPopup "" "" "" "" "" false "" None ∅ 1%positive.

(** [setTimeout(hideNotification, 5000)] and [clearTimeout(id)];
    clearing [undefined] or a handle no longer pending does nothing. *)
Definition setHideTimeout (p : Popup) : positive * Popup :=
  let id := nextTimer p in
  (id, mkPopup (message p) (iconClass p) (iconColor p) (popupTitle p) (actionText p)
         (active p) (bodyOverflow p) (notificationTimeout p)
         ({[ id ]} ∪ hideTimers p) (Pos.succ id)).

Definition clearTimeout (id : option positive) (p : Popup) : Popup :=
  match id with
  | Some i =>
      mkPopup (message p) (iconClass p) (iconColor p) (popupTitle p) (actionText p)
        (active p) (bodyOverflow p) (notificationTimeout p)
        (hideTimers p ∖ {[ i ]}) (nextTimer p)
  | None => p
  end.

Definition set_notificationTimeout (id : option positive) (p : Popup) : Popup :=
  mkPopup (message p) (iconClass p) (iconColor p) (popupTitle p) (actionText p)
    (active p) (bodyOverflow p) id (hideTimers p) (nextTimer p).

(** The popup closed: class [active] removed, scrolling restored. *)
Definition shut (p : Popup) : Popup :=
  mkPopup (message p) (iconClass p) (iconColor p) (popupTitle p) (actionText p)
    false "" (notificationTimeout p) (hideTimers p) (nextTimer p).

Module UiPopup.

(** [hideNotification()] of ui.js. *)
Definition hideNotification (p : Popup) : Popup :=
  shut (clearTimeout (notificationTimeout p) p).

(** [showNotification(message, type, options)] of ui.js. *)
Definition showNotification (msg : string) (type : Kind) (options : Options)
    (p : Popup) : Popup :=
  let notificationType := notificationTypes type in
  let p := mkPopup msg ("fas " ++ icon notificationType) (color notificationType)
             (or_str (optTitle options) (title notificationType))
             (or_str (optConfirmText options) "حسناً")
             true "hidden" (notificationTimeout p) (hideTimers p) (nextTimer p) in
  if is_error type then p
  else
    let p := clearTimeout (notificationTimeout p) p in
    let '(id, p) := setHideTimeout p in
    set_notificationTimeout (Some id) p.

End UiPopup.

Module ScriptPopup.

(** [hideNotification()] of the script. *)
Definition hideNotification (p : Popup) : Popup := shut p.

(** [showNotification(message, type)] of the script: the icon is the
    same for each type, its colour is set on the icon itself, the title
    and the button text are left alone, and a new timeout is set every
    time. *)
Definition showNotification (msg : string) (type : Kind) (p : Popup) : Popup :=
  let notificationType := notificationTypes type in
  let p := mkPopup msg ("fas " ++ icon notificationType) (color notificationType)
             (popupTitle p) (actionText p)
             true "hidden" (notificationTimeout p) (hideTimers p) (nextTimer p) in
  (setHideTimeout p).2.

End ScriptPopup.

(** What happens to the popup: a notification is shown, the user
    closes it, or a timeout comes due. *)
Inductive PopupOp : Type :=
| PShow (msg : string) (type : Kind) (options : Options)
| PClose
| PFire (id : positive).

(** A timeout that is due leaves the pending set and runs
    [hideNotification]; a handle that is not pending does nothing. *)
Definition fire (hideNotification : Popup -> Popup) (id : positive) (p : Popup) : Popup :=
  if bool_decide (id ∈ hideTimers p) then
    hideNotification
      (mkPopup (message p) (iconClass p) (iconColor p) (popupTitle p) (actionText p)
         (active p) (bodyOverflow p) (notificationTimeout p)
         (hideTimers p ∖ {[ id ]}) (nextTimer p))
  else p.

Definition UiPopup_step (op : PopupOp) (p : Popup) : Popup :=
  match op with
  | PShow msg type options => UiPopup.showNotification msg type options p
  | PClose => UiPopup.hideNotification p
  | PFire id => fire UiPopup.hideNotification id p
  end.

Definition ScriptPopup_step (op : PopupOp) (p : Popup) : Popup :=
  match op with
  | PShow msg type _ => ScriptPopup.showNotification msg type p
  | PClose => ScriptPopup.hideNotification p
  | PFire id => fire ScriptPopup.hideNotification id p
  end.

Definition popup_run (step : PopupOp -> Popup -> Popup) (ops : list PopupOp)
    (p : Popup) : Popup :=
  fold_left (fun p op => step op p) ops p.

(** Every pending timeout is the one [notificationTimeout] names. *)
Definition pending_inv (p : Popup) : Prop :=
  forall id, id ∈ hideTimers p -> notificationTimeout p = Some id.

(** Every pending handle has been drawn from the counter. *)
Definition drawn (p : Popup) : Prop :=
  forall id, id ∈ hideTimers p -> (id < nextTimer p)%positive.

Definition no_options : Options := mkOptions None None.

(** ** The theme switch (theme.js) *)

(** What theme.js reads and writes: the [data-theme] attribute of the
    document ([None] while it is not set), the local storage, and the
    toggle button with its title (also its [aria-label]) and the
    [display] of its two icons. *)
Record ThemePage : Type := mkThemePage {
  dataTheme : option string;
  localStorage : gmap string string;
  toggleTitle : string;
  moonDisplay : string;
  sunDisplay : string
}.

(** [updateThemeButton()]. *)
Definition updateThemeButton (p : ThemePage) : ThemePage :=
  let currentTheme := dataTheme p in
  let isDark := str_eq currentTheme "dark" in
  let title := if isDark then "التبديل إلى الوضع الفاتح"
               else "التبديل إلى الوضع المظلم" in
  if isDark then mkThemePage (dataTheme p) (localStorage p) title "none" "block"
  else mkThemePage (dataTheme p) (localStorage p) title "block" "none".

(** [toggleTheme()]. *)
Definition toggleTheme (p : ThemePage) : ThemePage :=
  let currentTheme := dataTheme p in
  let newTheme := if str_eq currentTheme "dark" then "light" else "dark" in
  updateThemeButton
    (mkThemePage (Some newTheme) (<["theme" := newTheme]> (localStorage p))
       (toggleTitle p) (moonDisplay p) (sunDisplay p)).

(** [initTheme()]; [systemPrefersDark] is what the media query
    answers. *)
Definition initTheme (systemPrefersDark : bool) (p : ThemePage) : ThemePage :=
  let savedTheme := localStorage p !! "theme" in
  let theme := if truthy_str savedTheme then default "" savedTheme
               else if systemPrefersDark then "dark" else "light" in
  updateThemeButton
    (mkThemePage (Some theme) (localStorage p) (toggleTitle p) (moonDisplay p) (sunDisplay p)).

(** The button shows the sun exactly when the theme is dark. *)
Definition button_matches (p : ThemePage) : Prop :=
  if str_eq (dataTheme p) "dark"
  then sunDisplay p = "block" /\ moonDisplay p = "none"
  else sunDisplay p = "none" /\ moonDisplay p = "block".

(** A page that has just been loaded with the storage [storage]. *)
Definition fresh_page (storage : gmap string string) : ThemePage :=
  mkThemePage None storage "" "" "".

(** ** Saved preferences (storage.js and the script) *)

(** A value [JSON.parse] can return. *)
#[warnings="-register-all"] Inductive json : Type :=
| JNull
| JBool (b : bool)
| JNum (n : number)
| JStr (s : string)
| JArr (items : list json)
| JObj (fields : list (string * json)).

(** The field [key] of an object: the last one of that name, as
    [JSON.parse] keeps it. *)
Fixpoint field_of (fields : list (string * json)) (key : string) : option json :=
  match fields with
  | [] => None
  | (k, v) :: rest =>
      match field_of rest key with
      | Some w => Some w
      | None => if String.eqb k key then Some v else None
      end
  end.

(** [v.key] for the keys the code reads ([city], [audioEnabled],
    [isAudioEnabled]): reading a property of [null] throws, an object
    gives its field or [undefined], and no other value has a property of
    such a name. *)
Definition property (v : json) (key : string) : completion (option json) :=
  match v with
  | JNull => Throw TypeError
  | JObj fields => Normal (field_of fields key)
  | _ => Normal None
  end.

(** Truthiness of a possibly undefined value. *)
Definition truthy_json (v : option json) : bool :=
  match v with
  | None | Some JNull => false
  | Some (JBool b) => b
  | Some (JNum n) => truthy n
  | Some (JStr s) => negb (String.eqb s "")
  | Some (JArr _) | Some (JObj _) => true
  end.

Definition PREFS_KEY : string := "prayerTimesPreferences".

(** The object [loadPreferences] of storage.js returns. *)
Record Preferences : Type := mkPreferences {
  city : json;
  audioEnabled : json
}.

Definition defaultPrefs : Preferences := mkPreferences (JStr "Cairo,EG") (JBool false).

Module Prefs.
Section Codec.

(** [JSON.stringify] and [JSON.parse] are taken as given. *)
Variable JSON_stringify : json -> string.
Variable JSON_parse : string -> completion json.

(** [savePreferences(city, audioEnabled)] of storage.js. *)
Definition savePreferences (city audioEnabled : json) (storage : gmap string string)
    : gmap string string :=
  let preferences := JObj [("city", city); ("audioEnabled", audioEnabled)] in
  <[PREFS_KEY := JSON_stringify preferences]> storage.

(** [loadPreferences()] of storage.js. *)
Definition loadPreferences (storage : gmap string string) : Preferences :=
  let tried : completion Preferences :=
    let saved := storage !! PREFS_KEY in
    if negb (truthy_str saved) then mret defaultPrefs
    else
      parsed ← JSON_parse (default "" saved);
      parsedCity ← property parsed "city";
      parsedAudio ← property parsed "audioEnabled";
      mret (mkPreferences
              (if truthy_json parsedCity then default JNull parsedCity
               else city defaultPrefs)
              (match parsedAudio with
               | Some v => v
               | None => audioEnabled defaultPrefs
               end)) in
  match tried with
  | Normal prefs => prefs
  | Throw _ => defaultPrefs
  end.

End Codec.
End Prefs.

Module ScriptPrefs.

(** The script's two variables and the state of its audio button. *)
Record Vars : Type := mkVars {
  currentCity : option json;
  isAudioEnabled : option json;
  muted : bool
}.

(** The fields of an object literal that [JSON.stringify] writes: those
    whose value is not [undefined]. *)
Fixpoint written (fields : list (string * option json)) : list (string * json) :=
  match fields with
  | [] => []
  | (k, Some v) :: rest => (k, v) :: written rest
  | (_, None) :: rest => written rest
  end.

Section Codec.

Variable JSON_stringify : json -> string.
Variable JSON_parse : string -> completion json.

(** The object [savePreferences()] of the script serialises. *)
Definition preferencesOf (vars : Vars) : json :=
  JObj (written [("city", currentCity vars); ("isAudioEnabled", isAudioEnabled vars)]).

(** [savePreferences()] of the script, from its two variables. *)
Definition savePreferences (vars : Vars) (storage : gmap string string)
    : gmap string string :=
  <[PREFS_KEY := JSON_stringify (preferencesOf vars)]> storage.

(** [loadPreferences()] of the script ([None] for [undefined]).
    Nothing here is caught. *)
Definition loadPreferences (storage : gmap string string) (vars : Vars)
    : completion Vars :=
  let savedPreferences := storage !! PREFS_KEY in
  if truthy_str savedPreferences then
    preferences ← JSON_parse (default "" savedPreferences);
    newCity ← property preferences "city";
    newAudio ← property preferences "isAudioEnabled";
    mret (mkVars newCity newAudio (negb (truthy_json newAudio)))
  else mret vars.

(** [toggleAudio()] of the script. *)
Definition toggleAudio (vars : Vars) (storage : gmap string string)
    : Vars * gmap string string :=
  let enabled := negb (truthy_json (isAudioEnabled vars)) in
  let vars' := mkVars (currentCity vars) (Some (JBool enabled)) (negb enabled) in
  (vars', savePreferences vars' storage).

End Codec.
End ScriptPrefs.

Module App.

(** The two variables of app.js, the state of the audio button and the
    number of times the athan was started. *)
Record Vars : Type := mkVars {
  currentCity : json;
  isAudioEnabled : json;
  muted : bool;
  athanPlays : nat
}.

Section Codec.

Variable JSON_stringify : json -> string.

(** [toggleAudio()] of app.js, with [updateAudioButton] and [playAthan]
    of ui.js. *)
Definition toggleAudio (vars : Vars) (storage : gmap string string)
    : Vars * gmap string string :=
  let enabled := negb (truthy_json (Some (isAudioEnabled vars))) in
  (mkVars (currentCity vars) (JBool enabled) (negb enabled)
     (if enabled then S (athanPlays vars) else athanPlays vars),
   Prefs.savePreferences JSON_stringify (currentCity vars) (JBool enabled) storage).

End Codec.
End App.

(** A stand-in for the two JSON functions on the values of the
    examples: flat objects are printed without escapes, and only the
    values listed are read back. *)
Definition quoted (s : string) : string :=
  String (ascii_of_nat 34) (s ++ String (ascii_of_nat 34) "").

Definition print_value (v : json) : string :=
  match v with
  | JNull => "null"
  | JBool true => "true"
  | JBool false => "false"
  | JNum n => toString n
  | JStr s => quoted s
  | JArr _ => "[]"
  | JObj _ => "{}"
  end.

Definition sample_stringify (v : json) : string :=
  match v with
  | JObj fields =>
      "{" ++ String.concat "," (map (fun kv => quoted kv.1 ++ ":" ++ print_value kv.2) fields)
      ++ "}"
  | _ => print_value v
  end.

Definition sample_values : list json :=
  [JObj [("city", JStr "Makkah,SA"); ("audioEnabled", JBool true)];
   JObj [("city", JStr "Makkah,SA"); ("isAudioEnabled", JBool true)]].

Definition sample_parse (s : string) : completion json :=
  match List.find (fun v => String.eqb (sample_stringify v) s) sample_values with
  | Some v => Normal v
  | None => Throw "SyntaxError"
  end.


(** The sample day after a resolution and a tick in ui.js. *)
Definition resolved_day : State :=
  run Ui_step [OpResolve (mkDate 4 0 0); OpTick (mkDate 4 0 1)] (loaded sample_day).

(** Saved variables of the two versions, for the examples. *)
Definition script_vars : ScriptPrefs.Vars :=
  ScriptPrefs.mkVars (Some (JStr "Makkah,SA")) (Some (JBool true)) false.

Definition script_muted : ScriptPrefs.Vars :=
  ScriptPrefs.mkVars (Some (JStr "Makkah,SA")) (Some (JBool false)) true.

Definition app_muted : App.Vars :=
  App.mkVars (JStr "Makkah,SA") (JBool false) true 0.

(** * Properties *)

(** ** The model on concrete inputs *)

Example split_space : split " " "5:30 AM" = ["5:30"; "AM"].
Proof. reflexivity. Qed.

Example Number_pad : Number "05" = Int 5 /\ Number "" = Int 0 /\ Number "30 (EET)" = NaN.
Proof. repeat split. Qed.

Example toString_ex : toString (Int 7) = "7" /\ toString (Int 0) = "0" /\ toString (Int (-5)) = "-5".
Proof. repeat split. Qed.

Example formatTime_ex :
  formatTime "05:30" = Normal "5:30 ص" /\ formatTime "00:05" = Normal "12:05 ص"
  /\ formatTime "12:00" = Normal "12:00 م" /\ formatTime "23:59" = Normal "11:59 م"
  /\ formatTime "05:30 (EET)" = Normal "5:NaN ص" /\ formatTime "0530" = Throw TypeError.
Proof. repeat split. Qed.

Example formatTimeRemaining_ex :
  formatTimeRemaining (Int 3661) = "01:01:01" /\ formatTimeRemaining (Int 0) = "00:00:00"
  /\ formatTimeRemaining (Int 86399) = "23:59:59" /\ formatTimeRemaining (Int 420) = "00:07:00".
Proof. repeat split. Qed.

Example getPrayerArabicName_ex : getPrayerArabicName "fajr" = "الفجر" /\ getPrayerArabicName "x" = "x".
Proof. split; vm_compute; reflexivity. Qed.

Example convertTo24Hour_ex :
  convertTo24Hour "12:05 ص" = Normal (Int 0, Some (Int 5))
  /\ convertTo24Hour "11:59 م" = Normal (Int 23, Some (Int 59))
  /\ convertTo24Hour "5:NaN ص" = Normal (Int 5, Some NaN)
  /\ prayerTimeInMinutes "5" = Normal NaN.
Proof. repeat split. Qed.

Example currentPrayerName_ex :
  currentPrayerName "fajr" = Some "isha" /\ currentPrayerName "asr" = Some "dhuhr"
  /\ currentPrayerName "noon" = None.
Proof. repeat split. Qed.

Example split_empty : split ":" "" = [""].
Proof. reflexivity. Qed.

Example parseInt_ex : parseInt (Some "12") = Int 12 /\ parseInt (Some "NaN") = NaN
                      /\ parseInt None = NaN /\ parseInt (Some "30 (EET)") = Int 30.
Proof. repeat split. Qed.

(** White space of more than one byte is dropped like a space: here a
    no-break space (U+00A0) before the digits and an ideographic space
    (U+3000) after them. *)
Example trim_ex :
  let nbsp := String (ascii_of_nat 194) (String (ascii_of_nat 160) "") in
  let wide := String (ascii_of_nat 227) (String (ascii_of_nat 128)
                (String (ascii_of_nat 128) "")) in
  trim (nbsp ++ " 12 " ++ wide) = "12"
  /\ Number (nbsp ++ "12" ++ wide) = Int 12
  /\ parseInt (Some (nbsp ++ "12")) = Int 12
  /\ trim " a  b " = "a  b".
Proof. repeat split; vm_compute; reflexivity. Qed.

(** ** Facts about the JavaScript fragment *)

Lemma split_cons (sep : ascii) (s : string) :
  exists first rest, split sep s = first :: rest.
Proof.
  induction s as [|c r IH]; simpl.
  - by exists "", [].
  - destruct (Ascii.eqb c sep).
    + by exists "", (split sep r).
    + destruct IH as (x & xs & ->). by exists (String c x), xs.
Qed.

Lemma split_head (sep : ascii) (s : string) :
  exists first, split sep s !! 0%nat = Some first.
Proof. destruct (split_cons sep s) as (x & xs & ->). by exists x. Qed.




(** Unfolding of the completion monad in goals. *)
Ltac js := unfold mret, mbind, completion_ret, completion_bind; cbn [bind receiver].

(** ** The scan never throws *)

Lemma convertTo24Hour_total (entry : string) :
  exists hours minutes, convertTo24Hour entry = Normal (hours, minutes).
Proof.
  unfold convertTo24Hour.
  destruct (split_head " " entry) as (time & ->). js. eauto.
Qed.

Lemma prayerTimeInMinutes_total (entry : string) :
  exists t, prayerTimeInMinutes entry = Normal t.
Proof.
  unfold prayerTimeInMinutes.
  destruct (convertTo24Hour_total entry) as (h & m & ->). js. eauto.
Qed.

Lemma findNextPrayer_total (pt : gmap string string) (cur : Z) (order : list string) :
  exists found, findNextPrayer pt cur order = Normal found.
Proof.
  induction order as [|p rest IH]; cbn [findNextPrayer].
  - exists None. reflexivity.
  - destruct (negb (truthy_str (pt !! p))); [exact IH|].
    destruct (prayerTimeInMinutes_total (default "" (pt !! p))) as (t & ->). js.
    destruct (gt t (Int cur)); [|exact IH].
    exists (Some p). reflexivity.
Qed.

Lemma parseTarget_total (entry : string) :
  exists r, parseTarget entry = Normal r.
Proof.
  unfold parseTarget.
  destruct (split_head " " entry) as (time & ->). js.
  destruct (_ || _); eauto.
Qed.

Lemma timeRemaining_total (entry : string) (cur : Z) :
  exists r, timeRemaining entry cur = Normal r.
Proof.
  unfold timeRemaining.
  destruct (parseTarget_total entry) as ([time | [h m]] & ->); js; eauto.
Qed.

(** ** Formatting and reading back a time of day *)

Lemma reads_back_range : forallb reads_back clock_range = true.
Proof. vm_compute. reflexivity. Qed.

Lemma clock_range_complete (t : TimeOfDay) : valid_time t -> In t clock_range.
Proof.
  destruct t as [h m]. intros [Hh Hm]. simpl in Hh, Hm.
  apply list_elem_of_In. unfold clock_range.
  apply list_elem_of_bind. exists h. split; [|apply elem_of_seqZ; lia].
  apply list_elem_of_bind. exists m. split; [|apply elem_of_seqZ; lia].
  apply list_elem_of_singleton. reflexivity.
Qed.

Lemma reads_back_valid (t : TimeOfDay) : valid_time t -> reads_back t = true.
Proof.
  intros Ht. pose proof reads_back_range as H.
  rewrite forallb_forall in H. apply H, clock_range_complete, Ht.
Qed.

Lemma formatTime_valid (t : TimeOfDay) :
  valid_time t ->
  formatTime (HHMM t) = Normal (displayOf t)
  /\ truthy_str (Some (displayOf t)) = true
  /\ convertTo24Hour (displayOf t) = Normal (Int (hour t), Some (Int (minute t)))
  /\ parseTarget (displayOf t) = Normal (inr (Int (hour t), Int (minute t))).
Proof.
  intros Ht. apply reads_back_valid in Ht. unfold reads_back in Ht.
  unfold displayOf. destruct (formatTime (HHMM t)) as [s|]; [|discriminate].
  destruct (convertTo24Hour s) as [[[h|] [[m|]|]]|]; try discriminate.
  destruct (parseTarget s) as [[|[[h'|] [m'|]]]|]; try discriminate.
  repeat (apply andb_prop in Ht as [Ht ?]).
  repeat match goal with H : (_ =? _)%Z = true |- _ => apply Z.eqb_eq in H; subst end.
  simpl. auto.
Qed.

Lemma prayerTimeInMinutes_valid (t : TimeOfDay) :
  valid_time t -> prayerTimeInMinutes (displayOf t) = Normal (Int (minutesOf t)).
Proof.
  intros (_ & _ & H & _)%formatTime_valid.
  unfold prayerTimeInMinutes. rewrite H. reflexivity.
Qed.

Lemma timeRemaining_valid (t : TimeOfDay) (cur : Z) :
  valid_time t ->
  timeRemaining (displayOf t) cur
  = Normal (inr (wrapRemaining (Int (hour t)) (Int (minute t)) cur)).
Proof.
  intros (_ & _ & _ & H)%formatTime_valid.
  unfold timeRemaining. rewrite H. reflexivity.
Qed.

(** ** What a tick changes *)

Ltac tick_cases :=
  repeat match goal with
  | |- context [match nextPrayer ?st with _ => _ end] => destruct (nextPrayer st)
  | |- context [if negb (truthy_str ?v) then _ else _] => destruct (negb (truthy_str v))
  | |- context [JS.bind (timeRemaining ?e ?c) _] =>
      destruct (timeRemaining e c) as [[?time | ?r] | ?error]; cbn [JS.bind]
  | |- context [if ?c then Script.playAthan _ else _] => destruct c
  | |- context [Script.playAthan ?st] => unfold Script.playAthan
  | |- context [if isAudioEnabled ?st then _ else _] => destruct (isAudioEnabled st)
  end.

Ltac frame :=
  unfold tick_frame; cbn;
  repeat split; try reflexivity;
  first [ by exists [] | by eexists [_] | by eexists [_; _] ].

Lemma Script_updateCountdown_frame (now : Date) (st : State) :
  tick_frame st (Script.updateCountdown now st).2.
Proof.
  unfold Script.updateCountdown. js. tick_cases; frame.
Qed.

Lemma Ui_updateCountdown_frame (now : Date) (st : State) :
  tick_frame st (Ui.updateCountdown now st).2.
Proof.
  unfold Ui.updateCountdown. js. tick_cases; frame.
Qed.

(** ** Restarting the ticker *)

Lemma since_app (before after : State) (new : list Event) :
  trace after = (new ++ trace before)%list -> since before after = rev new.
Proof.
  intros H. unfold since. rewrite H, length_app.
  replace (length new + length (trace before) - length (trace before))%nat
    with (length new) by lia.
  by rewrite take_app_length.
Qed.

Lemma tickers_clear (id : positive) (st : State) :
  ticker_inv st -> countdownInterval st = Some id -> tickers (clearInterval id st) = ∅.
Proof.
  intros Hinv Hid. unfold tickers. cbn.
  apply map_eq. intros j. rewrite lookup_empty.
  destruct (filter _ (delete id (timers st)) !! j) as [t|] eqn:Hj; [|done].
  apply map_lookup_filter_Some in Hj as [Hj Ht].
  apply lookup_delete_Some in Hj as [Hne Hj].
  assert (tickers st !! j = Some t) as Hin
    by (apply map_lookup_filter_Some; split; assumption).
  apply Hinv in Hin. congruence.
Qed.

Lemma tickers_none (st : State) :
  ticker_inv st -> countdownInterval st = None -> tickers st = ∅.
Proof.
  intros Hinv Hnone. apply map_eq. intros j. rewrite lookup_empty.
  destruct (tickers st !! j) as [t|] eqn:Hj; [|done].
  apply Hinv in Hj. congruence.
Qed.

Section TickerFacts.

Variable updateCountdown : Date -> State -> bool * State.
Hypothesis updateCountdown_frame :
  forall now st, tick_frame st (updateCountdown now st).2.

Lemma startCountdown_keeps (now : Date) (st : State) :
  let st' := startCountdown updateCountdown now st in
  prayerTimes st' = prayerTimes st /\ nextPrayer st' = nextPrayer st
  /\ isAudioEnabled st' = isAudioEnabled st /\ activeCards st' = activeCards st.
Proof.
  unfold startCountdown.
  set (st1 := match countdownInterval st with
              | Some id => clearInterval id st
              | None => st
              end).
  destruct (updateCountdown_frame now st1) as (Hp & Hn & _ & Ha & Hc & _).
  assert (prayerTimes st1 = prayerTimes st /\ nextPrayer st1 = nextPrayer st
          /\ isAudioEnabled st1 = isAudioEnabled st /\ activeCards st1 = activeCards st)
    as (? & ? & ? & ?) by (subst st1; destruct (countdownInterval st); cbn; auto).
  cbn. repeat split; congruence.
Qed.

Lemma startCountdown_one_ticker (now : Date) (st : State) :
  ticker_inv st -> one_ticker (startCountdown updateCountdown now st).
Proof.
  intros Hinv. unfold startCountdown.
  set (st1 := match countdownInterval st with
              | Some id => clearInterval id st
              | None => st
              end).
  assert (tickers st1 = ∅) as Hempty.
  { subst st1. destruct (countdownInterval st) as [id|] eqn:Hid.
    - by apply tickers_clear.
    - by apply tickers_none. }
  destruct (updateCountdown_frame now st1) as (_ & _ & _ & _ & _ & Ht & Hh & _).
  set (st2 := (updateCountdown now st1).2) in *.
  exists (nextHandle st2). split; [reflexivity|].
  unfold tickers in *. cbn.
  rewrite map_filter_insert_True by reflexivity.
  rewrite Ht, Hempty. reflexivity.
Qed.

Lemma one_ticker_inv (st : State) : one_ticker st -> ticker_inv st.
Proof.
  intros (id & Hid & Ht) j t. rewrite Ht.
  intros [-> _]%lookup_singleton_Some. exact Hid.
Qed.

Lemma startCountdown_timing (now : Date) (st : State) :
  timing_since st (startCountdown updateCountdown now st)
  = (cancelled st
     ++ [EvTick;
         EvSetInterval (nextHandle st) cbUpdateCountdown 1000])%list.
Proof.
  unfold startCountdown, timing_since, cancelled.
  set (st1 := match countdownInterval st with
              | Some id => clearInterval id st
              | None => st
              end).
  destruct (updateCountdown_frame now st1)
    as (_ & _ & _ & _ & _ & _ & Hh & effects & Htr & Heff).
  set (st2 := (updateCountdown now st1).2) in *.
  assert (nextHandle st1 = nextHandle st) as Hh1
    by (subst st1; destruct (countdownInterval st); reflexivity).
  assert (exists pre, trace st1 = (pre ++ trace st)%list
                      /\ rev pre = match countdownInterval st with
                                   | Some id => [EvClearInterval id]
                                   | None => []
                                   end) as (pre & Hpre & Hrev).
  { subst st1. destruct (countdownInterval st) as [id|].
    - by exists [EvClearInterval id].
    - by exists []. }
  rewrite (since_app st _
             (EvSetInterval (nextHandle st2) cbUpdateCountdown 1000
                :: effects ++ EvTick :: pre)).
  - cbn [rev]. rewrite rev_app_distr. cbn [rev].
    rewrite !List.filter_app, Hrev, Hh, Hh1. cbn [List.filter is_timing app].
    rewrite List.filter_rev, Heff. cbn [rev app].
    destruct (countdownInterval st); reflexivity.
  - cbn. rewrite Htr, Hpre. by rewrite <- !app_assoc.
Qed.

End TickerFacts.

(** ** The scan selects the first upcoming prayer *)

Lemma findNextPrayer_find (pt : gmap string string) (cur : Z) (order : list string) :
  findNextPrayer pt cur order = Normal (List.find (upcoming pt cur) order).
Proof.
  induction order as [|p rest IH]; cbn [findNextPrayer List.find]; [reflexivity|].
  unfold upcoming at 1.
  destruct (truthy_str (pt !! p)); cbn [negb andb]; [|exact IH].
  destruct (prayerTimeInMinutes_total (default "" (pt !! p))) as (t & ->). js.
  destruct (gt t (Int cur)); [reflexivity | exact IH].
Qed.


Lemma split_first (sep : ascii) (s : string) :
  split sep s !! 0%nat = Some (before sep s).
Proof.
  induction s as [|c r IH]; cbn [split before]; [reflexivity|].
  destruct (Ascii.eqb c sep); [reflexivity|].
  destruct (split sep r) as [|x xs]; [discriminate|].
  cbn in IH |- *. by injection IH as ->.
Qed.

Lemma split_next (sep : ascii) (s : string) :
  split sep s !! 1%nat = before sep <$> after sep s.
Proof.
  induction s as [|c r IH]; cbn [split before after]; [reflexivity|].
  destruct (Ascii.eqb c sep).
  - apply (split_first sep r).
  - destruct (split_cons sep r) as (x & xs & Hsplit). rewrite Hsplit in IH |- *.
    exact IH.
Qed.








Lemma scheduleOf_lookup (d : DaySchedule) (p : string) (t : TimeOfDay) :
  (p, t) ∈ entries d -> scheduleOf d !! p = Some (displayOf t).
Proof.
  unfold entries, scheduleOf. rewrite !elem_of_cons, elem_of_nil.
  intros [H|[H|[H|[H|[H|[H|[]]]]]]]; injection H as -> ->; by simplify_map_eq.
Qed.

Lemma upcoming_schedule (d : DaySchedule) (cur : Z) (p : string) (t : TimeOfDay) :
  Forall valid_time (times d) -> (p, t) ∈ entries d ->
  upcoming (scheduleOf d) cur p = (cur <? minutesOf t)%Z.
Proof.
  intros Hvalid Hin.
  assert (valid_time t) as Ht.
  { rewrite Forall_forall in Hvalid. apply Hvalid.
    revert Hin. unfold entries, times. rewrite !elem_of_cons, !elem_of_nil.
    intros [H|[H|[H|[H|[H|[H|[]]]]]]]; injection H as -> ->; auto 10. }
  unfold upcoming. rewrite (scheduleOf_lookup d p t Hin).
  change (default "" (Some (displayOf t))) with (displayOf t).
  destruct (formatTime_valid t Ht) as (_ & -> & _).
  rewrite (prayerTimeInMinutes_valid t Ht). reflexivity.
Qed.

Lemma findNextPrayer_schedule (d : DaySchedule) (cur : Z) :
  Forall valid_time (times d) ->
  findNextPrayer (scheduleOf d) cur prayerOrder = Normal (firstAfter d cur).
Proof.
  intros Hvalid. rewrite findNextPrayer_find. f_equal.
  unfold prayerOrder, firstAfter. cbn [List.find].
  rewrite !(upcoming_schedule d cur _ _ Hvalid)
    by (unfold entries; rewrite !elem_of_cons; auto 10).
  reflexivity.
Qed.

(** ** What [updateNextPrayer] resolves *)

Lemma orFajr_in_order (found : option string) :
  (forall p, found = Some p -> p ∈ prayerOrder) -> orFajr found ∈ prayerOrder.
Proof.
  intros H. destruct found as [p|]; [|unfold prayerOrder; set_solver].
  specialize (H p eq_refl). revert H.
  unfold prayerOrder. rewrite !elem_of_cons, elem_of_nil.
  intros [->|[->|[->|[->|[->|[->|[]]]]]]]; cbn; auto 10.
Qed.

Lemma currentPrayerName_predecessor (next : string) :
  next ∈ prayerOrder ->
  currentPrayerName next = predecessor next /\ is_Some (predecessor next).
Proof.
  unfold prayerOrder. rewrite !elem_of_cons, elem_of_nil.
  intros [->|[->|[->|[->|[->|[->|[]]]]]]]; split; try reflexivity; by eexists.
Qed.

(** The name the scan and the default leave in [nextPrayerName]. *)
Lemma scan_in_order (pt : gmap string string) (cur : Z) :
  orFajr (List.find (upcoming pt cur) prayerOrder) ∈ prayerOrder.
Proof.
  apply orFajr_in_order. intros p Hp.
  apply List.find_some in Hp as [Hin _]. by apply list_elem_of_In.
Qed.

Lemma Ui_updateNextPrayer_resolved (now : Date) (st : State) (current : string) :
  let next := orFajr (List.find (upcoming (prayerTimes st) (minuteOfDay now)) prayerOrder) in
  predecessor next = Some current ->
  resolved (Ui.updateNextPrayer now st) next current.
Proof.
  intros next Hcur. unfold Ui.updateNextPrayer.
  change (prayerTimes (set_activeCards ∅ st)) with (prayerTimes st).
  change (getHours now * 60 + getMinutes now) with (minuteOfDay now).
  rewrite findNextPrayer_find. js. fold next.
  destruct (currentPrayerName_predecessor next (scan_in_order _ _)) as [-> _].
  rewrite Hcur.
  match goal with
  | |- resolved (Normal (?np, Ui.startCountdown now ?s)) _ _ =>
      destruct (startCountdown_keeps Ui.updateCountdown Ui_updateCountdown_frame now s)
        as (_ & Hn & _ & Ha);
      exists np, (Ui.startCountdown now s)
  end.
  unfold Ui.startCountdown. rewrite Hn, Ha. cbn.
  repeat split. apply union_empty_r_L.
Qed.

Lemma Script_updateNextPrayer_resolved (now : Date) (st : State) (current : string) :
  let next := orFajr (List.find (upcoming (prayerTimes st) (minuteOfDay now)) prayerOrder) in
  predecessor next = Some current ->
  resolved (Script.updateNextPrayer now st) next current.
Proof.
  intros next Hcur. unfold Script.updateNextPrayer.
  change (prayerTimes (set_activeCards ∅ st)) with (prayerTimes st).
  change (getHours now * 60 + getMinutes now) with (minuteOfDay now).
  rewrite findNextPrayer_find. js. fold next.
  destruct (currentPrayerName_predecessor next (scan_in_order _ _)) as [-> _].
  rewrite Hcur. eexists _, _. split; [reflexivity|]. cbn.
  repeat split. apply union_empty_r_L.
Qed.

(** ** The athan on a tick *)

Lemma truthy_str_Some (v : option string) :
  truthy_str v = true -> exists s, v = Some s /\ truthy_str (Some s) = true.
Proof. destruct v as [s|]; [eauto | discriminate]. Qed.

Lemma Script_tick_plays (now : Date) (st : State) :
  plays (Script.updateCountdown now st).2
  = (plays st + if isAudioEnabled st && in_window st now then 1 else 0)%nat.
Proof.
  unfold Script.updateCountdown, in_window, remaining, plays.
  change (getHours now * 3600 + getMinutes now * 60 + getSeconds now)
    with (secondOfDay now).
  cbn [nextPrayer prayerTimes log]. js.
  destruct (nextPrayer st) as [np|]; [|rewrite andb_false_r; cbn; lia].
  destruct (truthy_str (prayerTimes st !! name np)) eqn:Hentry; cbn [negb];
    [|rewrite andb_false_r; cbn; lia].
  apply truthy_str_Some in Hentry as (s & -> & Hs).
  change (default "" (Some s)) with s. rewrite Hs. cbn [negb].
  unfold Script.playAthan.
  destruct (timeRemaining s (secondOfDay now)) as [[time | [r|]] | e]; cbn [JS.bind];
    destruct (isAudioEnabled st) eqn:Haudio; cbn; rewrite ?Haudio;
    try destruct (r <=? 60)%Z; try destruct (0 <? r)%Z; cbn; rewrite ?Haudio; cbn; lia.
Qed.

Lemma Ui_tick_plays (now : Date) (st : State) :
  plays (Ui.updateCountdown now st).2 = plays st.
Proof.
  unfold Ui.updateCountdown, plays. js. tick_cases; reflexivity.
Qed.

Lemma in_window_frame (before after : State) (now : Date) :
  tick_frame before after -> in_window after now = in_window before now.
Proof.
  intros (Hp & Hn & _). unfold in_window, remaining. by rewrite Hp, Hn.
Qed.

Lemma ticks_cons (f : Date -> State -> bool * State) (now : Date)
    (rest : list Date) (st : State) :
  ticks f (now :: rest) st = ticks f rest (f now st).2.
Proof. reflexivity. Qed.

Lemma Script_ticks_plays (readings : list Date) (st : State) :
  plays (ticks Script.updateCountdown readings st)
  = (plays st + if isAudioEnabled st
                then length (List.filter (in_window st) readings) else 0)%nat.
Proof.
  revert st. induction readings as [|now rest IH]; intros st.
  - cbn. destruct (isAudioEnabled st); lia.
  - rewrite ticks_cons, IH, Script_tick_plays. cbn [List.filter].
    pose proof (Script_updateCountdown_frame now st) as Hframe.
    destruct Hframe as (Hp & Hn & Hc & Ha & Hrest).
    rewrite Ha.
    rewrite (List.filter_ext (in_window (Script.updateCountdown now st).2) (in_window st))
      by (intros x; apply in_window_frame, Script_updateCountdown_frame).
    destruct (isAudioEnabled st), (in_window st now); cbn; lia.
Qed.

Lemma Ui_ticks_plays (readings : list Date) (st : State) :
  plays (ticks Ui.updateCountdown readings st) = plays st.
Proof.
  revert st. induction readings as [|now rest IH]; intros st; [reflexivity|].
  by rewrite ticks_cons, IH, Ui_tick_plays.
Qed.

(** C1 (as stated, refuted).  With the audio on and fajr at 04:30, the
    ticks of the last minute before fajr, from 61 seconds left down to 1,
    call [play()] on the athan sixty times, not once. *)
Lemma athan_replayed_inside_window :
  isAudioEnabled before_fajr = true
  /\ map (remaining before_fajr) (take 3 last_minute) = [Some 61; Some 60; Some 59]
  /\ last (map (remaining before_fajr) last_minute) = Some (Some 1)
  /\ plays before_fajr = 0%nat
  /\ plays (ticks Script.updateCountdown (take 2 last_minute) before_fajr) = 1%nat
  /\ plays (ticks Script.updateCountdown (take 3 last_minute) before_fajr) = 2%nat
  /\ plays (ticks Script.updateCountdown last_minute before_fajr) = 60%nat
  /\ plays (ticks Script.updateCountdown last_minute before_fajr) <> 1%nat.
Proof.
  repeat split; try (vm_compute; reflexivity).
  vm_compute. discriminate.
Qed.

(** C1 (amended).  In the script every tick whose seconds left fall in
    (0, 60] while the audio is on calls [play()] once, so a run of ticks
    calls it as many times as it has readings inside the window; no
    tick outside the window or with the audio off calls it, and the tick
    of ui.js never does. *)
Theorem athan_on_every_tick_in_window (readings : list Date) (st : State) :
  plays (ticks Script.updateCountdown readings st)
  = (plays st + if isAudioEnabled st
                then length (List.filter (in_window st) readings) else 0)%nat
  /\ plays (ticks Ui.updateCountdown readings st) = plays st.
Proof.
  split; [apply Script_ticks_plays | apply Ui_ticks_plays].
Qed.

(** ** The 12-hour entry and its two readers *)

Lemma shown_range : forallb shown_ok clock_range = true.
Proof. vm_compute. reflexivity. Qed.

Lemma displayOf_shown (t : TimeOfDay) : valid_time t -> displayOf t = shown t.
Proof.
  intros Ht. pose proof shown_range as H. rewrite forallb_forall in H.
  apply String.eqb_eq, H, clock_range_complete, Ht.
Qed.

(** C5.  For every hour in [0,23] and minute in [0,59], [formatTime]
    turns the API string HH:MM into the 12-hour entry with the marker of
    the half of the day, and the parsing rule of the scan (and the one
    of the tick) turns that entry back into the same hour and minute. *)
Theorem formatTime_parse_roundtrip (h m : Z) :
  0 <= h < 24 -> 0 <= m < 60 ->
  exists entry,
    formatTime (HHMM (mkTime h m)) = Normal entry
    /\ entry = shown (mkTime h m)
    /\ convertTo24Hour entry = Normal (Int h, Some (Int m))
    /\ parseTarget entry = Normal (inr (Int h, Int m)).
Proof.
  intros Hh Hm.
  assert (valid_time (mkTime h m)) as Ht by (split; assumption).
  destruct (formatTime_valid _ Ht) as (Hf & _ & Hscan & Htick).
  exists (displayOf (mkTime h m)).
  split; [exact Hf|]. split; [by apply displayOf_shown|]. split; assumption.
Qed.

Lemma formatTime_parse_roundtrip_witness :
  exists entry,
    formatTime "00:05" = Normal entry
    /\ entry = "12:05 ص"
    /\ convertTo24Hour entry = Normal (Int 0, Some (Int 5))
    /\ parseTarget entry = Normal (inr (Int 0, Int 5)).
Proof. apply (formatTime_parse_roundtrip 0 5); lia. Defined.

(** ** Resolution on a stored day *)

Lemma resolve_schedule (d : DaySchedule) (now : Date) (st : State) (current : string) :
  Forall valid_time (times d) -> prayerTimes st = scheduleOf d ->
  let next := orFajr (firstAfter d (minuteOfDay now)) in
  predecessor next = Some current ->
  resolved (Ui.updateNextPrayer now st) next current
  /\ resolved (Script.updateNextPrayer now st) next current.
Proof.
  intros Hvalid Hst next Hcur.
  pose proof (findNextPrayer_schedule d (minuteOfDay now) Hvalid) as Hscan.
  rewrite findNextPrayer_find in Hscan. injection Hscan as Hscan.
  subst next. rewrite <- Hscan, <- Hst in *.
  split; [by apply Ui_updateNextPrayer_resolved
         | by apply Script_updateNextPrayer_resolved].
Qed.

Lemma resolved_next_unique (r : completion (NextPrayer * State))
    (next next' current current' : string) :
  resolved r next current -> resolved r next' current' -> next = next'.
Proof.
  intros (np & st & -> & <- & _) (np' & st' & [= <- _] & <- & _). reflexivity.
Qed.

Lemma updatePrayerTimes_stores (d : DaySchedule) (st : State) :
  Forall valid_time (times d) ->
  exists st', updatePrayerTimes (timingsOf d) st = Normal st'
              /\ prayerTimes st' = scheduleOf d.
Proof.
  unfold times. rewrite !Forall_cons.
  intros (H1 & H2 & H3 & H4 & H5 & H6 & _).
  apply formatTime_valid in H1 as (H1 & _), H2 as (H2 & _), H3 as (H3 & _),
    H4 as (H4 & _), H5 as (H5 & _), H6 as (H6 & _).
  unfold updatePrayerTimes, timingsOf. simplify_map_eq. js.
  rewrite H1, H2, H3, H4, H5, H6. js.
  eexists. split; reflexivity.
Qed.

(** Decides the comparisons of [firstAfter] from the facts at hand. *)
Ltac scan_cases :=
  unfold firstAfter;
  repeat match goal with
  | |- context [(?a <? ?b)%Z] => destruct (Z.ltb_spec a b); try (exfalso; lia)
  end.

(** C4.  On a well-formed schedule (six valid times, non-decreasing),
    when the clock is strictly before fajr, or strictly after isha, both
    versions resolve next = fajr and highlight isha as the current
    prayer. *)
Theorem fajr_before_first_and_after_last (d : DaySchedule) (now : Date) (st : State) :
  well_formed d -> prayerTimes st = scheduleOf d ->
  minuteOfDay now < minutesOf (fajr d) \/ minutesOf (isha d) < minuteOfDay now ->
  resolved (Ui.updateNextPrayer now st) "fajr" "isha"
  /\ resolved (Script.updateNextPrayer now st) "fajr" "isha".
Proof.
  intros [Hvalid Hasc] Hst Hnow.
  assert (orFajr (firstAfter d (minuteOfDay now)) = "fajr") as Hnext.
  { cbn in Hasc. destruct Hnow; scan_cases; reflexivity. }
  pose proof (resolve_schedule d now st "isha" Hvalid Hst) as H.
  cbv zeta in H. rewrite Hnext in H. by apply H.
Qed.

Lemma sample_day_increasing : strictly_increasing sample_day.
Proof.
  split; [|cbn; unfold minutesOf; cbn; lia].
  unfold times, sample_day, valid_time. cbn.
  repeat (apply Forall_cons_2; [cbn; lia|]). apply Forall_nil_2.
Qed.

Lemma increasing_well_formed (d : DaySchedule) : strictly_increasing d -> well_formed d.
Proof. intros [Hvalid Hasc]. split; [exact Hvalid|]. cbn in *. lia. Qed.

Lemma fajr_before_first_and_after_last_witness :
  (resolved (Ui.updateNextPrayer (mkDate 3 15 0) (loaded sample_day)) "fajr" "isha"
   /\ resolved (Script.updateNextPrayer (mkDate 3 15 0) (loaded sample_day)) "fajr" "isha")
  /\ (resolved (Ui.updateNextPrayer (mkDate 22 40 0) (loaded sample_day)) "fajr" "isha"
      /\ resolved (Script.updateNextPrayer (mkDate 22 40 0) (loaded sample_day)) "fajr" "isha").
Proof.
  pose proof (increasing_well_formed _ sample_day_increasing) as Hwf.
  split; apply (fajr_before_first_and_after_last sample_day); try exact Hwf;
    try (vm_compute; reflexivity); unfold minuteOfDay, minutesOf; cbn; lia.
Defined.

Lemma minutesOf_range (t : TimeOfDay) : valid_time t -> 0 <= minutesOf t < 1440.
Proof. unfold valid_time, minutesOf. lia. Qed.

Lemma minuteOfDay_range (now : Date) : valid_date now -> 0 <= minuteOfDay now < 1440.
Proof. unfold valid_date, minuteOfDay. lia. Qed.

Lemma tied_day_well_formed : well_formed tied_day.
Proof.
  split; [|cbn; unfold minutesOf; cbn; lia].
  unfold times, tied_day, valid_time. cbn.
  repeat (apply Forall_cons_2; [cbn; lia|]). apply Forall_nil_2.
Qed.

(** C3 (as stated, refuted).  A well-formed schedule may report two
    prayers at the same minute.  With fajr and sunrise both at 05:00,
    one minute before sunrise the next prayer is fajr, not sunrise; and
    at fajr's exact time the next prayer is dhuhr, not the prayer after
    fajr. *)
Lemma tie_breaks_the_neighbour_rule :
  well_formed tied_day
  /\ prayerTimes (loaded tied_day) = scheduleOf tied_day
  /\ minuteOfDay (mkDate 4 59 0) + 1 = minutesOf (sunrise tied_day)
  /\ resolved (Ui.updateNextPrayer (mkDate 4 59 0) (loaded tied_day)) "fajr" "isha"
  /\ ~ (exists c, resolved (Ui.updateNextPrayer (mkDate 4 59 0) (loaded tied_day)) "sunrise" c)
  /\ minuteOfDay (mkDate 5 0 0) = minutesOf (fajr tied_day)
  /\ successor "fajr" = Some "sunrise"
  /\ resolved (Ui.updateNextPrayer (mkDate 5 0 0) (loaded tied_day)) "dhuhr" "sunrise"
  /\ ~ (exists c, resolved (Ui.updateNextPrayer (mkDate 5 0 0) (loaded tied_day)) "sunrise" c).
Proof.
  pose proof tied_day_well_formed as [Hvalid _].
  assert (prayerTimes (loaded tied_day) = scheduleOf tied_day) as Hst
    by (vm_compute; reflexivity).
  assert (resolved (Ui.updateNextPrayer (mkDate 4 59 0) (loaded tied_day)) "fajr" "isha") as H1
    by (apply (resolve_schedule tied_day (mkDate 4 59 0) _ "isha" Hvalid Hst); reflexivity).
  assert (resolved (Ui.updateNextPrayer (mkDate 5 0 0) (loaded tied_day)) "dhuhr" "sunrise") as H2
    by (apply (resolve_schedule tied_day (mkDate 5 0 0) _ "sunrise" Hvalid Hst); reflexivity).
  split; [exact tied_day_well_formed|]. split; [exact Hst|].
  split; [reflexivity|]. split; [exact H1|].
  split; [intros [c Hc]; by pose proof (resolved_next_unique _ _ _ _ _ H1 Hc)|].
  split; [reflexivity|]. split; [reflexivity|]. split; [exact H2|].
  intros [c Hc]. by pose proof (resolved_next_unique _ _ _ _ _ H2 Hc).
Qed.

(** C3 (amended).  On a schedule whose six valid times are strictly
    increasing, for every prayer P: one minute before P's time (on the
    dial of the day) both versions resolve next = P; at P's exact time
    they resolve next = the prayer after P in the fixed order (fajr
    after isha), and P is the highlighted current prayer. *)
Theorem next_around_a_prayer_time (d : DaySchedule) (now : Date) (st : State)
    (p : string) (t : TimeOfDay) :
  strictly_increasing d -> prayerTimes st = scheduleOf d -> valid_date now ->
  (p, t) ∈ entries d ->
  ((minuteOfDay now + 1) mod 1440 = minutesOf t ->
   exists c, predecessor p = Some c
             /\ resolved (Ui.updateNextPrayer now st) p c
             /\ resolved (Script.updateNextPrayer now st) p c)
  /\ (minuteOfDay now = minutesOf t ->
      exists q, successor p = Some q
                /\ resolved (Ui.updateNextPrayer now st) q p
                /\ resolved (Script.updateNextPrayer now st) q p).
Proof.
  intros [Hvalid Hasc] Hst Hnow Hin.
  apply minuteOfDay_range in Hnow.
  pose proof Hvalid as Hrange. unfold times in Hrange.
  rewrite !Forall_cons in Hrange.
  destruct Hrange as (R1%minutesOf_range & R2%minutesOf_range & R3%minutesOf_range
                      & R4%minutesOf_range & R5%minutesOf_range & R6%minutesOf_range & _).
  cbn in Hasc.
  assert ((minuteOfDay now + 1) mod 1440 = minutesOf t ->
          minuteOfDay now + 1 = minutesOf t
          \/ (minuteOfDay now = 1439 /\ minutesOf t = 0)) as Hone.
  { intros Heq. destruct (Z.eq_dec (minuteOfDay now) 1439) as [E|E].
    - right. rewrite E in Heq. change ((1439 + 1) mod 1440) with 0 in Heq. lia.
    - left. rewrite Z.mod_small in Heq; lia. }
  revert Hin Hone. unfold entries. rewrite !elem_of_cons, elem_of_nil.
  intros [H|[H|[H|[H|[H|[H|[]]]]]]] Hone; injection H as -> ->;
    (split; [intros Heq%Hone | intros Heq]);
    eexists; (split; [reflexivity|]);
    match goal with
    | |- resolved _ ?next _ /\ _ =>
        assert (orFajr (firstAfter d (minuteOfDay now)) = next) as Hnext
          by (scan_cases; reflexivity);
        rewrite <- Hnext;
        apply (resolve_schedule d now st _ Hvalid Hst);
        rewrite Hnext; reflexivity
    end.
Qed.

Lemma next_around_a_prayer_time_witness :
  (exists c, predecessor "dhuhr" = Some c
             /\ resolved (Ui.updateNextPrayer (mkDate 11 59 30) (loaded sample_day)) "dhuhr" c
             /\ resolved (Script.updateNextPrayer (mkDate 11 59 30) (loaded sample_day)) "dhuhr" c)
  /\ (exists q, successor "dhuhr" = Some q
                /\ resolved (Ui.updateNextPrayer (mkDate 12 0 0) (loaded sample_day)) q "dhuhr"
                /\ resolved (Script.updateNextPrayer (mkDate 12 0 0) (loaded sample_day)) q "dhuhr").
Proof.
  assert (prayerTimes (loaded sample_day) = scheduleOf sample_day) as Hst
    by (vm_compute; reflexivity).
  assert (("dhuhr", mkTime 12 0) ∈ entries sample_day) as Hin
    by (unfold entries, sample_day; cbn; rewrite !elem_of_cons; auto).
  split.
  - apply (next_around_a_prayer_time sample_day (mkDate 11 59 30) _ "dhuhr" (mkTime 12 0)
             sample_day_increasing Hst); [unfold valid_date; cbn; lia | exact Hin | reflexivity].
  - apply (next_around_a_prayer_time sample_day (mkDate 12 0 0) _ "dhuhr" (mkTime 12 0)
             sample_day_increasing Hst); [unfold valid_date; cbn; lia | exact Hin | reflexivity].
Defined.

(** ** Entries the scan cannot use *)

Lemma find_none_all (f : string -> bool) (l : list string) :
  (forall p, p ∈ l -> f p = false) -> List.find f l = None.
Proof.
  induction l as [|x l IH]; intros H; cbn [List.find]; [reflexivity|].
  rewrite (H x) by apply list_elem_of_here.
  apply IH. intros p Hp. apply H. by apply list_elem_of_further.
Qed.

Lemma orFajr_found (found : option string) :
  (forall q, found = Some q -> q ∈ prayerOrder) ->
  found = Some (orFajr found) \/ found = None /\ orFajr found = "fajr".
Proof.
  destruct found as [q|]; [|by right]. intros Hin. left.
  specialize (Hin q eq_refl). revert Hin.
  unfold prayerOrder. rewrite !elem_of_cons, elem_of_nil.
  intros [->|[->|[->|[->|[->|[->|[]]]]]]]; reflexivity.
Qed.


Example numeric_ex :
  map numeric ["30"; "05"; ""; " 7 "; "-3"; "1.5"; "5."; ".5"; "1e1"; "0x10"; "Infinity"]
  = [true; true; true; true; true; true; true; true; true; true; true]
  /\ map numeric ["NaN"; "30 (EET)"; "."; "1e"; "0x"; "-0x10"; "12a"; "+-1"; "1 2"]
     = [false; false; false; false; false; false; false; false; false].
Proof. split; vm_compute; reflexivity. Qed.

Example skipped_ex :
  map (skipped (<["fajr" := "5:NaN ص"]> (<["asr" := "3:30 م"]> (<["isha" := ""]>
                 (<["maghrib" := "6 م"]> (<["sunrise" := "1.5:30 ص"]> ∅))))))
      ["fajr"; "asr"; "isha"; "dhuhr"; "maghrib"; "sunrise"]
  = [true; false; true; true; true; false].
Proof. vm_compute. reflexivity. Qed.



(** C10.  For every state (whatever the schedule holds) and every
    clock reading, both versions return normally, the next prayer is one
    of the six identifiers and the highlighted current prayer is its
    predecessor in the fixed order (isha before fajr).  The highlighted
    prayer need not have an entry: on the empty schedule isha is
    highlighted although nothing is stored for it. *)
Theorem next_and_current_closed :
  (forall (now : Date) (st : State),
     exists next current,
       next ∈ prayerOrder /\ predecessor next = Some current
       /\ resolved (Ui.updateNextPrayer now st) next current
       /\ resolved (Script.updateNextPrayer now st) next current)
  /\ (forall now : Date,
        prayerTimes initial !! "isha" = None
        /\ resolved (Ui.updateNextPrayer now initial) "fajr" "isha"
        /\ resolved (Script.updateNextPrayer now initial) "fajr" "isha").
Proof.
  split.
  - intros now st.
    set (next := orFajr (List.find (upcoming (prayerTimes st) (minuteOfDay now)) prayerOrder)).
    pose proof (scan_in_order (prayerTimes st) (minuteOfDay now)) as Hin. fold next in Hin.
    destruct (currentPrayerName_predecessor next Hin) as [_ [c Hc]].
    exists next, c. split; [exact Hin|]. split; [exact Hc|].
    split; [by apply Ui_updateNextPrayer_resolved
           | by apply Script_updateNextPrayer_resolved].
  - intros now. split; [reflexivity|].
    assert (List.find (upcoming (prayerTimes initial) (minuteOfDay now)) prayerOrder = None)
      as Hnone by (apply find_none_all; intros p _; reflexivity).
    pose proof (Ui_updateNextPrayer_resolved now initial "isha") as Hu.
    pose proof (Script_updateNextPrayer_resolved now initial "isha") as Hs.
    cbv zeta in Hu, Hs. rewrite Hnone in Hu, Hs.
    split; [by apply Hu | by apply Hs].
Qed.

(** ** The countdown tick *)

Lemma padded_range : forallb padded_ok (seqZ 0 100) = true.
Proof. vm_compute. reflexivity. Qed.

Lemma padStart_two_digits (n : Z) :
  0 <= n < 100 -> padStart 2 (toString (Int n)) = two_digits n.
Proof.
  intros Hn. pose proof padded_range as H. rewrite forallb_forall in H.
  apply String.eqb_eq, H, list_elem_of_In, elem_of_seqZ. lia.
Qed.

Lemma Script_formatTimeRemaining_same (seconds : number) :
  Script.formatTimeRemaining seconds = formatTimeRemaining seconds.
Proof. reflexivity. Qed.

Lemma formatTimeRemaining_HHMMSS (seconds : Z) :
  0 <= seconds < 360000 -> formatTimeRemaining (Int seconds) = HHMMSS seconds.
Proof.
  intros Hs. unfold formatTimeRemaining, HHMMSS. cbn [floor_div rem Z.eqb String.concat].
  rewrite !Z.rem_mod_nonneg by lia.
  assert (0 <= seconds / 3600 < 100) as H1
    by (split; [apply Z.div_pos; lia | apply Z.div_lt_upper_bound; lia]).
  pose proof (Z.mod_pos_bound seconds 3600 ltac:(lia)) as Hmod.
  assert (0 <= seconds mod 3600 / 60 < 100) as H2
    by (split; [apply Z.div_pos; lia | apply Z.div_lt_upper_bound; lia]).
  pose proof (Z.mod_pos_bound seconds 60 ltac:(lia)) as H3.
  rewrite !padStart_two_digits by lia. reflexivity.
Qed.

Lemma wrapRemaining_Int (h m cur : Z) :
  wrapRemaining (Int h) (Int m) cur
  = Int (if (h * 3600 + m * 60 - cur <? 0)%Z
         then h * 3600 + m * 60 - cur + 86400 else h * 3600 + m * 60 - cur).
Proof.
  unfold wrapRemaining. cbn [add mul sub lt].
  destruct (h * 3600 + m * 60 - cur <? 0)%Z; reflexivity.
Qed.

Lemma secondOfDay_range (now : Date) : valid_date now -> 0 <= secondOfDay now < 86400.
Proof. unfold valid_date, secondOfDay. lia. Qed.

Lemma parseTarget_nonempty (entry : string) (target : number * number) :
  parseTarget entry = Normal (inr target) -> truthy_str (Some entry) = true.
Proof. destruct entry; [discriminate | reflexivity]. Qed.

(** A tick that gets as far as the seconds left. *)
Lemma tick_shows_remaining (now : Date) (st : State) (np : NextPrayer)
    (entry : string) (r : Z) :
  nextPrayer st = Some np -> prayerTimes st !! name np = Some entry ->
  truthy_str (Some entry) = true ->
  timeRemaining entry (secondOfDay now) = Normal (inr (Int r)) ->
  remaining st now = Some r
  /\ Ui.updateCountdown now st
     = (true, set_countdownText (formatTimeRemaining (Int r)) (log EvTick st))
  /\ (Script.updateCountdown now st).1 = true
  /\ countdownText (Script.updateCountdown now st).2 = Script.formatTimeRemaining (Int r).
Proof.
  intros Hnp Hentry Htruthy Hrem.
  unfold remaining, Ui.updateCountdown, Script.updateCountdown.
  change (getHours now * 3600 + getMinutes now * 60 + getSeconds now)
    with (secondOfDay now).
  cbn [nextPrayer prayerTimes log]. rewrite Hnp, Hentry.
  change (default "" (Some entry)) with entry. rewrite Htruthy, Hrem. js.
  cbn [negb]. repeat split.
  cbn [snd]. unfold Script.playAthan.
  destruct (_ && _); [|reflexivity].
  destruct (isAudioEnabled _); reflexivity.
Qed.

(** C9.  Whenever the entry of the next prayer parses to an hour in
    [0,23] and a minute in [0,59], the value the tick hands to
    [formatTimeRemaining], for any valid clock reading, is an integer in
    [0, 86399]: the formatter is never called on a negative number. *)
Theorem remaining_within_a_day (entry : string) (h m : Z) (now : Date)
    (st : State) (np : NextPrayer) :
  parseTarget entry = Normal (inr (Int h, Int m)) ->
  0 <= h < 24 -> 0 <= m < 60 -> valid_date now ->
  nextPrayer st = Some np -> prayerTimes st !! name np = Some entry ->
  exists r,
    timeRemaining entry (secondOfDay now) = Normal (inr (Int r))
    /\ 0 <= r <= 86399
    /\ Ui.updateCountdown now st
       = (true, set_countdownText (formatTimeRemaining (Int r)) (log EvTick st))
    /\ (Script.updateCountdown now st).1 = true
    /\ countdownText (Script.updateCountdown now st).2 = Script.formatTimeRemaining (Int r).
Proof.
  intros Hparse Hh Hm Hnow%secondOfDay_range Hnp Hentry.
  assert (timeRemaining entry (secondOfDay now)
          = Normal (inr (wrapRemaining (Int h) (Int m) (secondOfDay now)))) as Hrem
    by (unfold timeRemaining; rewrite Hparse; reflexivity).
  rewrite wrapRemaining_Int in Hrem.
  eexists. split; [exact Hrem|].
  split; [destruct (Z.ltb_spec (h * 3600 + m * 60 - secondOfDay now) 0); lia|].
  eapply tick_shows_remaining; eauto using parseTarget_nonempty.
Qed.

Lemma remaining_within_a_day_witness :
  exists r,
    timeRemaining "12:05 ص" (secondOfDay (mkDate 23 58 0)) = Normal (inr (Int r))
    /\ 0 <= r <= 86399
    /\ Ui.updateCountdown (mkDate 23 58 0) late_evening
       = (true, set_countdownText (formatTimeRemaining (Int r)) (log EvTick late_evening))
    /\ (Script.updateCountdown (mkDate 23 58 0) late_evening).1 = true
    /\ countdownText (Script.updateCountdown (mkDate 23 58 0) late_evening).2
       = Script.formatTimeRemaining (Int r).
Proof.
  apply (remaining_within_a_day "12:05 ص" 0 5 (mkDate 23 58 0) late_evening fajr_next);
    [reflexivity | lia | lia | unfold valid_date; cbn; lia
    | vm_compute; reflexivity | vm_compute; reflexivity].
Defined.

(** C6.  With the entry of a valid time [t] stored for the next prayer,
    a tick at a valid reading computes the seconds of [t] minus the
    seconds of the clock, adds 86400 when that is negative, and writes
    the result to the countdown as HH:MM:SS with two digits per field.
    For the target 00:05 at 23:58:00 that is 420 seconds, shown as
    00:07:00. *)
Theorem countdown_wraps_and_formats (t : TimeOfDay) (now : Date) (st : State)
    (np : NextPrayer) :
  valid_time t -> valid_date now ->
  nextPrayer st = Some np -> prayerTimes st !! name np = Some (displayOf t) ->
  remaining st now = Some (secondsUntil t now)
  /\ Ui.updateCountdown now st
     = (true, set_countdownText (HHMMSS (secondsUntil t now)) (log EvTick st))
  /\ (Script.updateCountdown now st).1 = true
  /\ countdownText (Script.updateCountdown now st).2 = HHMMSS (secondsUntil t now)
  /\ formatTimeRemaining (Int (secondsUntil t now)) = HHMMSS (secondsUntil t now)
  /\ (t = mkTime 0 5 -> now = mkDate 23 58 0 ->
      secondsUntil t now = 420 /\ HHMMSS (secondsUntil t now) = "00:07:00").
Proof.
  intros Ht Hnow Hnp Hentry.
  destruct (formatTime_valid t Ht) as (_ & Htruthy & _ & _).
  pose proof (timeRemaining_valid t (secondOfDay now) Ht) as Hrem.
  rewrite wrapRemaining_Int in Hrem. fold (secondsOf t) in Hrem.
  fold (secondsUntil t now) in Hrem.
  destruct (tick_shows_remaining now st np _ _ Hnp Hentry Htruthy Hrem)
    as (H1 & H2 & H3 & H4).
  assert (0 <= secondsUntil t now < 360000) as Hrange.
  { apply secondOfDay_range in Hnow. unfold secondsUntil, secondsOf.
    destruct Ht as [Hh Hm].
    destruct (Z.ltb_spec (hour t * 3600 + minute t * 60 - secondOfDay now) 0); lia. }
  rewrite Script_formatTimeRemaining_same in H4.
  pose proof (formatTimeRemaining_HHMMSS _ Hrange) as Hformat.
  rewrite Hformat in H2, H4.
  repeat split; try assumption; subst; reflexivity.
Qed.

Lemma countdown_wraps_and_formats_witness :
  remaining late_evening (mkDate 23 58 0) = Some 420
  /\ countdownText (Ui.updateCountdown (mkDate 23 58 0) late_evening).2 = "00:07:00"
  /\ countdownText (Script.updateCountdown (mkDate 23 58 0) late_evening).2 = "00:07:00".
Proof.
  destruct (countdown_wraps_and_formats (mkTime 0 5) (mkDate 23 58 0) late_evening fajr_next)
    as (H1 & H2 & _ & H4 & _ & _);
    [unfold valid_time; cbn; lia | unfold valid_date; cbn; lia
    | vm_compute; reflexivity | vm_compute; reflexivity |].
  split; [exact H1|]. split; [rewrite H2; reflexivity | exact H4].
Defined.

(** ** At most one ticker *)

Lemma ticker_inv_size (st : State) : ticker_inv st -> (size (tickers st) <= 1)%nat.
Proof.
  intros Hinv. destruct (countdownInterval st) as [id|] eqn:Hid.
  - assert (tickers st = match tickers st !! id with
                         | Some t => {[ id := t ]}
                         | None => ∅
                         end) as ->.
    { apply map_eq. intros j. destruct (decide (j = id)) as [->|Hne].
      - destruct (tickers st !! id); [by rewrite lookup_singleton_eq | by rewrite lookup_empty].
      - transitivity (@None Timer).
        + destruct (tickers st !! j) as [t|] eqn:Hj; [|done].
          apply Hinv in Hj. congruence.
        + destruct (tickers st !! id);
            [by rewrite lookup_singleton_ne | by rewrite lookup_empty]. }
    destruct (tickers st !! id); [by rewrite map_size_singleton | by rewrite map_size_empty; lia].
  - rewrite (tickers_none st Hinv Hid), map_size_empty. lia.
Qed.

Lemma one_ticker_size (st : State) : one_ticker st -> size (tickers st) = 1%nat.
Proof. intros (id & _ & ->). apply map_size_singleton. Qed.

Lemma ticker_inv_same (before after : State) :
  timers after = timers before -> countdownInterval after = countdownInterval before ->
  ticker_inv before -> ticker_inv after.
Proof. intros Ht Hc Hinv id t. unfold tickers. rewrite Ht, Hc. apply Hinv. Qed.

Lemma tick_keeps_inv (before after : State) :
  tick_frame before after -> ticker_inv before -> ticker_inv after.
Proof. intros (_ & _ & Hc & _ & _ & Ht & _). by apply ticker_inv_same. Qed.

Lemma setTimeout_keeps_inv (cb : Callback) (ms : Z) (st : State) :
  ticker_inv st -> ticker_inv (setTimeout cb ms st).2.
Proof.
  intros Hinv id t. unfold tickers. cbn.
  intros [Hin Htick]%map_lookup_filter_Some.
  apply lookup_insert_Some in Hin as [[<- <-]|[Hne Hin]].
  - cbn in Htick. unfold is_ticker in Htick. cbn in Htick.
    destruct cb; discriminate.
  - apply (Hinv id t). by apply map_lookup_filter_Some.
Qed.

Lemma every_minute_keeps_inv (st : State) :
  ticker_inv st -> ticker_inv (setInterval cbUpdateDateTime 60000 st).2.
Proof.
  intros Hinv id t. unfold tickers. cbn.
  intros [Hin Htick]%map_lookup_filter_Some.
  apply lookup_insert_Some in Hin as [[<- <-]|[Hne Hin]]; [discriminate|].
  apply (Hinv id t). by apply map_lookup_filter_Some.
Qed.

Lemma updatePrayerTimes_keeps_inv (timings : gmap string string) (st st' : State) :
  updatePrayerTimes timings st = Normal st' -> ticker_inv st -> ticker_inv st'.
Proof.
  unfold updatePrayerTimes. js.
  repeat match goal with
  | |- context [JS.bind (JS.bind ?r ?k) _] =>
      destruct r as [?t|]; cbn [JS.bind]; [|discriminate]
  | |- context [JS.bind (formatTime ?t) _] =>
      destruct (formatTime t) as [?s|]; cbn [JS.bind]; [|discriminate]
  end.
  intros [= <-]. by apply ticker_inv_same.
Qed.

Ltac run_scan :=
  rewrite findNextPrayer_find;
  unfold mret, mbind, completion_ret, completion_bind, JS.bind; cbv beta iota.

Lemma Ui_resolve_keeps_inv (now : Date) (st : State) :
  ticker_inv st ->
  match Ui.updateNextPrayer now st with
  | Normal (_, st') => ticker_inv st'
  | Throw _ => True
  end.
Proof.
  intros Hinv. unfold Ui.updateNextPrayer. run_scan.
  apply one_ticker_inv.
  apply (startCountdown_one_ticker _ Ui_updateCountdown_frame).
  apply (ticker_inv_same st); [| |exact Hinv];
    destruct (currentPrayerName _); reflexivity.
Qed.

Lemma Script_resolve_keeps_inv (now : Date) (st : State) :
  ticker_inv st ->
  match Script.updateNextPrayer now st with
  | Normal (_, st') => ticker_inv st'
  | Throw _ => True
  end.
Proof.
  intros Hinv. unfold Script.updateNextPrayer. run_scan.
  apply setTimeout_keeps_inv.
  apply (ticker_inv_same st); [| |exact Hinv];
    destruct (currentPrayerName _); reflexivity.
Qed.

Lemma ticker_inv_initial : ticker_inv initial.
Proof. intros id t. unfold tickers. cbn. by rewrite map_filter_empty, lookup_empty. Qed.

Lemma Ui_step_keeps_inv (op : Op) (st : State) : ticker_inv st -> ticker_inv (Ui_step op st).
Proof.
  intros Hinv. unfold Ui_step, Script_step, step. destruct op as [now|now|now|timings|].
  - by apply (tick_keeps_inv st), Hinv; apply Ui_updateCountdown_frame.
  - by apply one_ticker_inv, (startCountdown_one_ticker _ Ui_updateCountdown_frame).
  - pose proof (Ui_resolve_keeps_inv now st Hinv) as H.
    destruct (Ui.updateNextPrayer now st) as [[np st']|]; assumption.
  - destruct (updatePrayerTimes timings st) as [st'|] eqn:H; [|exact Hinv].
    by apply (updatePrayerTimes_keeps_inv timings st st').
  - by apply every_minute_keeps_inv.
Qed.

Lemma Script_step_keeps_inv (op : Op) (st : State) :
  ticker_inv st -> ticker_inv (Script_step op st).
Proof.
  intros Hinv. unfold Ui_step, Script_step, step. destruct op as [now|now|now|timings|].
  - by apply (tick_keeps_inv st), Hinv; apply Script_updateCountdown_frame.
  - by apply one_ticker_inv, (startCountdown_one_ticker _ Script_updateCountdown_frame).
  - pose proof (Script_resolve_keeps_inv now st Hinv) as H.
    destruct (Script.updateNextPrayer now st) as [[np st']|]; assumption.
  - destruct (updatePrayerTimes timings st) as [st'|] eqn:H; [|exact Hinv].
    by apply (updatePrayerTimes_keeps_inv timings st st').
  - by apply every_minute_keeps_inv.
Qed.

Lemma run_keeps_inv (step : Op -> State -> State) (ops : list Op) (st : State) :
  (forall op st, ticker_inv st -> ticker_inv (step op st)) ->
  ticker_inv st -> ticker_inv (run step ops st).
Proof.
  intros Hstep. revert st. induction ops as [|op ops IH]; intros st Hinv; [exact Hinv|].
  cbn. apply IH, Hstep, Hinv.
Qed.

Lemma starts_one_ticker (startCountdown : Date -> State -> State)
    (now : Date) (readings : list Date) (st : State) :
  (forall now st, ticker_inv st -> one_ticker (startCountdown now st)) ->
  ticker_inv st -> one_ticker (starts startCountdown (now :: readings) st).
Proof.
  intros Hstart. revert now st.
  induction readings as [|next rest IH]; intros now st Hinv.
  - by apply Hstart.
  - change (starts startCountdown (now :: next :: rest) st)
      with (starts startCountdown (next :: rest) (startCountdown now st)).
    by apply IH, one_ticker_inv, Hstart.
Qed.

(** C7.  From any state in which no ticker runs unnamed by
    [countdownInterval] (the initial state is one, and every operation
    of either version keeps it so), [startCountdown] first cancels the
    ticker in [countdownInterval], if any, then runs one tick, then
    schedules the one-second repetition: afterwards exactly one ticker
    is active, the one [countdownInterval] names.  So after any number
    of starts, one or more, exactly one ticker is active, and after any
    run of operations at most one is. *)
Theorem one_ticker_after_start :
  (forall (now : Date) (st : State),
     ticker_inv st ->
     (one_ticker (Ui.startCountdown now st)
      /\ size (tickers (Ui.startCountdown now st)) = 1%nat
      /\ timing_since st (Ui.startCountdown now st)
         = (cancelled st
            ++ [EvTick; EvSetInterval (nextHandle st) cbUpdateCountdown 1000])%list)
     /\ (one_ticker (Script.startCountdown now st)
         /\ size (tickers (Script.startCountdown now st)) = 1%nat
         /\ timing_since st (Script.startCountdown now st)
            = (cancelled st
               ++ [EvTick; EvSetInterval (nextHandle st) cbUpdateCountdown 1000])%list))
  /\ (forall (now : Date) (readings : list Date),
        size (tickers (starts Ui.startCountdown (now :: readings) initial)) = 1%nat
        /\ size (tickers (starts Script.startCountdown (now :: readings) initial)) = 1%nat)
  /\ (forall ops : list Op,
        ticker_inv (run Ui_step ops initial)
        /\ (size (tickers (run Ui_step ops initial)) <= 1)%nat
        /\ ticker_inv (run Script_step ops initial)
        /\ (size (tickers (run Script_step ops initial)) <= 1)%nat).
Proof.
  pose proof (startCountdown_one_ticker _ Ui_updateCountdown_frame) as Hu.
  pose proof (startCountdown_one_ticker _ Script_updateCountdown_frame) as Hs.
  split; [|split].
  - intros now st Hinv. split.
    + split; [by apply Hu|]. split; [by apply one_ticker_size, Hu|].
      apply startCountdown_timing, Ui_updateCountdown_frame.
    + split; [by apply Hs|]. split; [by apply one_ticker_size, Hs|].
      apply startCountdown_timing, Script_updateCountdown_frame.
  - intros now readings. split; apply one_ticker_size, starts_one_ticker;
      auto using ticker_inv_initial.
  - intros ops.
    pose proof (run_keeps_inv Ui_step ops initial Ui_step_keeps_inv ticker_inv_initial).
    pose proof (run_keeps_inv Script_step ops initial Script_step_keeps_inv ticker_inv_initial).
    auto using ticker_inv_size.
Qed.

Lemma one_ticker_after_start_witness :
  let once := Ui.startCountdown (mkDate 4 0 0) initial in
  let twice := Ui.startCountdown (mkDate 4 0 1) once in
  timing_since initial once = [EvTick; EvSetInterval 1 cbUpdateCountdown 1000]
  /\ timing_since once twice
     = [EvClearInterval 1; EvTick; EvSetInterval 2 cbUpdateCountdown 1000]
  /\ one_ticker twice /\ size (tickers twice) = 1%nat.
Proof.
  intros once twice.
  destruct one_ticker_after_start as (Hstart & _ & _).
  destruct (Hstart (mkDate 4 0 0) initial ticker_inv_initial) as ((Hone & _ & Htrace) & _).
  destruct (Hstart (mkDate 4 0 1) once (one_ticker_inv _ Hone)) as ((Hone' & Hsize & Htrace') & _).
  split; [exact Htrace|]. split; [exact Htrace'|]. split; assumption.
Defined.

(** ** Ticks that cannot compute the seconds left *)

Lemma tick_without_entry (now : Date) (st : State) :
  (forall np, nextPrayer st = Some np -> truthy_str (prayerTimes st !! name np) = false) ->
  Ui.updateCountdown now st = (false, set_countdownText UNAVAILABLE (log EvTick st))
  /\ Script.updateCountdown now st = (false, set_countdownText UNAVAILABLE (log EvTick st)).
Proof.
  intros H. unfold Ui.updateCountdown, Script.updateCountdown.
  cbn [nextPrayer prayerTimes log].
  destruct (nextPrayer st) as [np|]; [rewrite (H np eq_refl)|]; split; reflexivity.
Qed.

Lemma tick_with_unparseable_entry (now : Date) (st : State) (np : NextPrayer)
    (entry time : string) :
  nextPrayer st = Some np -> prayerTimes st !! name np = Some entry ->
  truthy_str (Some entry) = true -> parseTarget entry = Normal (inl time) ->
  Ui.updateCountdown now st
  = (false, log (EvConsoleError ("Invalid time format: " ++ time)) (log EvTick st))
  /\ Script.updateCountdown now st
     = (false, log (EvConsoleError ("Invalid time format: " ++ time)) (log EvTick st)).
Proof.
  intros Hnp Hentry Htruthy Hparse.
  unfold Ui.updateCountdown, Script.updateCountdown, timeRemaining.
  cbn [nextPrayer prayerTimes log]. rewrite Hnp, Hentry.
  change (default "" (Some entry)) with entry. rewrite Htruthy, Hparse.
  split; reflexivity.
Qed.

(** The tick never throws and its catch block is never entered: every
    tick takes one of three exits. *)
Lemma tick_exits (now : Date) (st : State) :
  let unavailable := (false, set_countdownText UNAVAILABLE (log EvTick st)) in
  let invalid time :=
    (false, log (EvConsoleError ("Invalid time format: " ++ time)) (log EvTick st)) in
  (Ui.updateCountdown now st = unavailable /\ Script.updateCountdown now st = unavailable)
  \/ (exists time, Ui.updateCountdown now st = invalid time
                   /\ Script.updateCountdown now st = invalid time)
  \/ (exists r, remaining st now = Some r
                /\ Ui.updateCountdown now st
                   = (true, set_countdownText (formatTimeRemaining (Int r)) (log EvTick st))
                /\ (Script.updateCountdown now st).1 = true
                /\ countdownText (Script.updateCountdown now st).2
                   = Script.formatTimeRemaining (Int r)).
Proof.
  intros unavailable invalid.
  destruct (nextPrayer st) as [np|] eqn:Hnp;
    [|left; apply tick_without_entry; intros np; congruence].
  destruct (truthy_str (prayerTimes st !! name np)) eqn:Hentry;
    [|left; apply tick_without_entry; intros np' Hnp'; congruence].
  apply truthy_str_Some in Hentry as (entry & Hentry & Htruthy).
  destruct (parseTarget_total entry) as ([time | [hours minutes]] & Hparse).
  - right; left. exists time. by apply (tick_with_unparseable_entry now st np entry time).
  - right; right.
    assert (exists h m, hours = Int h /\ minutes = Int m) as (h & m & -> & ->).
    { revert Hparse. unfold parseTarget.
      destruct (split_head " " entry) as (time & ->). js.
      destruct (parseInt (split ":" time !! 0%nat)) as [h|], (parseInt (split ":" time !! 1%nat)) as [m|];
        cbn [isNaN orb]; try discriminate.
      intros [= <- <-]. cbn [lt strict_eq add].
      repeat match goal with |- context [if ?c then _ else _] => destruct c end; eauto. }
    assert (timeRemaining entry (secondOfDay now)
            = Normal (inr (wrapRemaining (Int h) (Int m) (secondOfDay now)))) as Hrem
      by (unfold timeRemaining; rewrite Hparse; reflexivity).
    rewrite wrapRemaining_Int in Hrem.
    eexists. by apply (tick_shows_remaining now st np entry).
Qed.

(** C2 (code at the failing input).  The timings carry a time-zone
    suffix after the minutes; [formatTime] stores them as entries such as
    "4:NaN" with the morning marker.  Once the next prayer is resolved
    the tick of either version returns false on such an entry but does
    not touch the countdown: the script keeps showing its loading text,
    ui.js the stale countdown, and neither shows the sentinel. *)
Theorem unparseable_entry_keeps_countdown (now : Date) :
  updatePrayerTimes suffixed_timings (set_countdownText "00:00:05" initial)
  = Normal suffixed_stored
  /\ prayerTimes suffixed_stored !! "fajr" = Some "4:NaN ص"
  /\ parseTarget "4:NaN ص" = Normal (inl "4:NaN")
  /\ nextPrayer suffixed_script = Some fajr_next
  /\ nextPrayer suffixed_ui = Some fajr_next
  /\ Script.updateCountdown now suffixed_script
     = (false, log (EvConsoleError "Invalid time format: 4:NaN") (log EvTick suffixed_script))
  /\ countdownText (Script.updateCountdown now suffixed_script).2 = "جاري التحديث..."
  /\ Ui.updateCountdown now suffixed_ui
     = (false, log (EvConsoleError "Invalid time format: 4:NaN") (log EvTick suffixed_ui))
  /\ countdownText (Ui.updateCountdown now suffixed_ui).2 = "00:00:05"
  /\ countdownText (Script.updateCountdown now suffixed_script).2 <> UNAVAILABLE
  /\ countdownText (Ui.updateCountdown now suffixed_ui).2 <> UNAVAILABLE.
Proof.
  assert (Script.updateCountdown now suffixed_script
          = (false, log (EvConsoleError "Invalid time format: 4:NaN") (log EvTick suffixed_script)))
    as Hs
    by (apply (tick_with_unparseable_entry now suffixed_script fajr_next "4:NaN ص" "4:NaN");
        vm_compute; reflexivity).
  assert (Ui.updateCountdown now suffixed_ui
          = (false, log (EvConsoleError "Invalid time format: 4:NaN") (log EvTick suffixed_ui)))
    as Hu
    by (apply (tick_with_unparseable_entry now suffixed_ui fajr_next "4:NaN ص" "4:NaN");
        vm_compute; reflexivity).
  rewrite Hs, Hu.
  repeat split; try (vm_compute; reflexivity); vm_compute; discriminate.
Qed.

(** * Further properties of the code *)

(** ** [split] and the colon *)

Lemma split_no_sep (sep : ascii) (s : string) :
  has_char sep s = false -> split sep s = [s].
Proof.
  induction s as [|c r IH]; cbn [has_char split]; [reflexivity|].
  intros [Hc Hr]%orb_false_elim. rewrite Hc, (IH Hr). reflexivity.
Qed.

Lemma split_app_sep (sep : ascii) (a s : string) :
  has_char sep a = false -> split sep (a ++ String sep s) = a :: split sep s.
Proof.
  induction a as [|c r IH]; intros Ha.
  - change ("" ++ String sep s) with (String sep s). cbn [split].
    by rewrite Ascii.eqb_refl.
  - change (String c r ++ String sep s) with (String c (r ++ String sep s)).
    cbn [has_char] in Ha. apply orb_false_elim in Ha as [Hc Hr].
    cbn [split]. rewrite Hc, (IH Hr). reflexivity.
Qed.

Lemma split_second (sep : ascii) (s : string) :
  is_Some (split sep s !! 1%nat) <-> has_char sep s = true.
Proof.
  induction s as [|c r IH]; cbn [has_char split].
  - split; [intros [x Hx]; discriminate | discriminate].
  - destruct (Ascii.eqb c sep); cbn [orb].
    + split; [reflexivity|]. intros _.
      destruct (split_cons sep r) as (x & xs & ->). by eexists.
    + rewrite <- IH. destruct (split_cons sep r) as (x & xs & ->). reflexivity.
Qed.

Lemma append_nonempty (a b : string) :
  truthy_str (Some b) = true -> truthy_str (Some (a ++ b)) = true.
Proof. destruct a; [auto | reflexivity]. Qed.

Lemma formatTime_colon (time24 : string) :
  has_char ":" time24 = true ->
  exists entry, formatTime time24 = Normal entry /\ truthy_str (Some entry) = true.
Proof.
  intros Hcolon%split_second. unfold formatTime.
  rewrite list_lookup_fmap. destruct Hcolon as [m ->]. cbn [fmap option_fmap option_map].
  eexists. split; [reflexivity|]. by apply append_nonempty.
Qed.

Lemma formatTime_no_colon (time24 : string) :
  has_char ":" time24 = false -> formatTime time24 = Throw TypeError.
Proof.
  intros Hcolon. unfold formatTime. by rewrite (split_no_sep _ _ Hcolon).
Qed.

(** X1.  [formatTime] throws exactly on the strings that hold no colon
    (its [minutes] is then undefined); on every other string, numeric or
    not, it returns a non-empty entry. *)
Theorem formatTime_throws_without_colon (time24 : string) :
  (formatTime time24 = Throw TypeError <-> has_char ":" time24 = false)
  /\ ((exists entry, formatTime time24 = Normal entry /\ truthy_str (Some entry) = true)
      <-> has_char ":" time24 = true).
Proof.
  destruct (has_char ":" time24) eqn:Hcolon.
  - destruct (formatTime_colon _ Hcolon) as (entry & Hentry & Htruthy).
    split; split; try done; [by rewrite Hentry | by exists entry].
  - pose proof (formatTime_no_colon _ Hcolon) as Hthrow.
    split; split; try done. intros (entry & Hentry & _). congruence.
Qed.

(** ** Storing the timings *)

Lemma stored_schedule_stocked (st : State) (e1 e2 e3 e4 e5 e6 : string) :
  prayerTimes st
  = <["fajr" := e1]> (<["sunrise" := e2]> (<["dhuhr" := e3]>
    (<["asr" := e4]> (<["maghrib" := e5]> (<["isha" := e6]> ∅))))) ->
  truthy_str (Some e1) = true -> truthy_str (Some e2) = true ->
  truthy_str (Some e3) = true -> truthy_str (Some e4) = true ->
  truthy_str (Some e5) = true -> truthy_str (Some e6) = true ->
  stocked st /\ dom (prayerTimes st) = list_to_set prayerOrder.
Proof.
  unfold stocked. intros -> H1 H2 H3 H4 H5 H6. split.
  - intros p. unfold prayerOrder. rewrite !elem_of_cons, elem_of_nil.
    intros [->|[->|[->|[->|[->|[->|[]]]]]]];
      repeat (rewrite lookup_insert_ne by done); rewrite lookup_insert_eq; assumption.
  - rewrite !dom_insert_L, dom_empty_L. unfold prayerOrder. cbn [list_to_set].
    reflexivity.
Qed.

Lemma updatePrayerTimes_cases (timings : gmap string string) (st : State) :
  if forallb (formattable timings) apiKeys then
    exists st',
      updatePrayerTimes timings st = Normal st'
      /\ stocked st' /\ dom (prayerTimes st') = list_to_set prayerOrder
      /\ nextPrayer st' = nextPrayer st /\ countdownText st' = countdownText st
      /\ activeCards st' = activeCards st /\ countdownInterval st' = countdownInterval st
      /\ timers st' = timers st /\ trace st' = trace st
  else updatePrayerTimes timings st = Throw TypeError.
Proof.
  unfold updatePrayerTimes, apiKeys, formattable. cbn [forallb]. js.
  repeat match goal with
  | |- context [timings !! ?k] =>
      destruct (timings !! k) as [?t|]; cbn [andb JS.bind receiver]; [|reflexivity];
      match goal with
      | |- context [formatTime ?t] =>
          let H := fresh "Hcolon" in
          destruct (has_char ":" t) eqn:H; cbn [andb];
          [ let e := fresh "e" in
            destruct (formatTime_colon t H) as (e & -> & ?); cbn [JS.bind]
          | rewrite (formatTime_no_colon t H); reflexivity ]
      end
  end.
  eexists. split; [reflexivity|]. cbn.
  match goal with
  | |- stocked ?s /\ dom ?m = _ /\ _ =>
      destruct (stored_schedule_stocked s e e0 e1 e2 e3 e4) as [Hs Hd];
        [reflexivity | assumption .. |]
  end.
  repeat split; assumption.
Qed.

(** X2.  [updatePrayerTimes] is all or nothing.  When each of the six
    timings is present and holds a colon it stores six non-empty
    entries, under exactly the six prayer identifiers, and leaves the
    next prayer, the countdown, the highlight and the timers alone; when
    one timing is missing or holds no colon it throws a TypeError before
    anything is stored. *)
Theorem updatePrayerTimes_all_or_nothing (timings : gmap string string) (st : State) :
  if forallb (formattable timings) apiKeys then
    exists st',
      updatePrayerTimes timings st = Normal st'
      /\ stocked st' /\ dom (prayerTimes st') = list_to_set prayerOrder
      /\ nextPrayer st' = nextPrayer st /\ countdownText st' = countdownText st
      /\ activeCards st' = activeCards st /\ countdownInterval st' = countdownInterval st
      /\ timers st' = timers st /\ trace st' = trace st
  else updatePrayerTimes timings st = Throw TypeError.
Proof. apply updatePrayerTimes_cases. Qed.

(** ** Once the timings are stored *)

Lemma updatePrayerTimes_stocked (timings : gmap string string) (st st' : State) :
  updatePrayerTimes timings st = Normal st' ->
  stocked st' /\ nextPrayer st' = nextPrayer st.
Proof.
  intros Hstore. pose proof (updatePrayerTimes_cases timings st) as H.
  destruct (forallb (formattable timings) apiKeys); [|congruence].
  destruct H as (st1 & Hst1 & Hstocked & _ & Hnext & _).
  assert (st1 = st') as <- by congruence. by split.
Qed.

Lemma Ui_resolve_keeps (now : Date) (st : State) :
  match Ui.updateNextPrayer now st with
  | Normal (_, st') => prayerTimes st' = prayerTimes st /\ named st'
  | Throw _ => True
  end.
Proof.
  unfold Ui.updateNextPrayer. run_scan.
  match goal with
  | |- prayerTimes (Ui.startCountdown now ?s) = _ /\ _ =>
      destruct (startCountdown_keeps Ui.updateCountdown Ui_updateCountdown_frame now s)
        as (Hp & Hn & _)
  end.
  unfold Ui.startCountdown, named. rewrite Hp, Hn. cbn [nextPrayer prayerTimes set_nextPrayerNameTexts set_nextPrayer].
  split.
  - destruct (currentPrayerName _); reflexivity.
  - intros np [= <-]. apply scan_in_order.
Qed.

Lemma Script_resolve_keeps (now : Date) (st : State) :
  match Script.updateNextPrayer now st with
  | Normal (_, st') => prayerTimes st' = prayerTimes st /\ named st'
  | Throw _ => True
  end.
Proof.
  unfold Script.updateNextPrayer, named. run_scan. cbn. split.
  - destruct (currentPrayerName _); reflexivity.
  - intros np [= <-]. apply scan_in_order.
Qed.

Lemma Ui_step_keeps_ready (op : Op) (st : State) :
  stocked st /\ named st -> stocked (Ui_step op st) /\ named (Ui_step op st).
Proof.
  intros [Hs Hn]. unfold Ui_step, step, stocked, named in *.
  destruct op as [now|now|now|timings|].
  - destruct (Ui_updateCountdown_frame now st) as (-> & -> & _). by split.
  - destruct (startCountdown_keeps _ Ui_updateCountdown_frame now st) as (Hp & Hnp & _).
    unfold Ui.startCountdown. rewrite Hp, Hnp. by split.
  - pose proof (Ui_resolve_keeps now st) as H.
    destruct (Ui.updateNextPrayer now st) as [[np st']|]; [|by split].
    destruct H as [-> Hnamed]. by split.
  - destruct (updatePrayerTimes timings st) as [st'|] eqn:Hstore; [|by split].
    apply updatePrayerTimes_stocked in Hstore as [Hstocked ->]. by split.
  - by split.
Qed.

Lemma Script_step_keeps_ready (op : Op) (st : State) :
  stocked st /\ named st -> stocked (Script_step op st) /\ named (Script_step op st).
Proof.
  intros [Hs Hn]. unfold Script_step, step, stocked, named in *.
  destruct op as [now|now|now|timings|].
  - destruct (Script_updateCountdown_frame now st) as (-> & -> & _). by split.
  - destruct (startCountdown_keeps _ Script_updateCountdown_frame now st) as (Hp & Hnp & _).
    unfold Script.startCountdown. rewrite Hp, Hnp. by split.
  - pose proof (Script_resolve_keeps now st) as H.
    destruct (Script.updateNextPrayer now st) as [[np st']|]; [|by split].
    destruct H as [-> Hnamed]. by split.
  - destruct (updatePrayerTimes timings st) as [st'|] eqn:Hstore; [|by split].
    apply updatePrayerTimes_stocked in Hstore as [Hstocked ->]. by split.
  - by split.
Qed.

Lemma run_keeps (P : State -> Prop) (step : Op -> State -> State)
    (ops : list Op) (st : State) :
  (forall op st, P st -> P (step op st)) -> P st -> P (run step ops st).
Proof.
  intros Hstep. revert st. induction ops as [|op ops IH]; intros st HP; [exact HP|].
  cbn. apply IH, Hstep, HP.
Qed.

Lemma ready_tick (now : Date) (st : State) (np : NextPrayer) :
  stocked st -> named st -> nextPrayer st = Some np ->
  (exists time,
     Ui.updateCountdown now st
     = (false, log (EvConsoleError ("Invalid time format: " ++ time)) (log EvTick st))
     /\ Script.updateCountdown now st
        = (false, log (EvConsoleError ("Invalid time format: " ++ time)) (log EvTick st)))
  \/ (exists r, remaining st now = Some r
                /\ Ui.updateCountdown now st
                   = (true, set_countdownText (formatTimeRemaining (Int r)) (log EvTick st))
                /\ (Script.updateCountdown now st).1 = true
                /\ countdownText (Script.updateCountdown now st).2
                   = Script.formatTimeRemaining (Int r)).
Proof.
  intros Hs Hn Hnp. pose proof (Hs _ (Hn _ Hnp)) as Hentry.
  destruct (tick_exits now st) as [[Hu _]|[H|H]]; [|by left|by right].
  exfalso. revert Hu. unfold Ui.updateCountdown. cbn [nextPrayer prayerTimes log].
  rewrite Hnp, Hentry. cbn [negb]. js.
  destruct (timeRemaining_total (default "" (prayerTimes st !! name np)) 
              (getHours now * 3600 + getMinutes now * 60 + getSeconds now)) as ([time|r] & ->);
    cbn [JS.bind]; intros [= ]; discriminate.
Qed.

(** X3.  Once a set of timings has been stored, no tick of either
    version takes the "unavailable" exit again as long as a next prayer
    is set, whatever is done to the page afterwards (ticks, restarts,
    resolutions, further stores, successful or not): the tick either
    shows the seconds left and returns true, or returns false at the
    invalid-format exit.  The sentinel is written only before the first
    store. *)
Theorem stored_timings_keep_ticks_available
    (timings : gmap string string) (st st1 : State) (ops : list Op) (now : Date) :
  named st -> updatePrayerTimes timings st = Normal st1 ->
  (forall np, nextPrayer (run Ui_step ops st1) = Some np ->
     (exists time,
        Ui.updateCountdown now (run Ui_step ops st1)
        = (false, log (EvConsoleError ("Invalid time format: " ++ time))
                    (log EvTick (run Ui_step ops st1))))
     \/ (exists r,
           remaining (run Ui_step ops st1) now = Some r
           /\ Ui.updateCountdown now (run Ui_step ops st1)
              = (true, set_countdownText (formatTimeRemaining (Int r))
                         (log EvTick (run Ui_step ops st1)))))
  /\ (forall np, nextPrayer (run Script_step ops st1) = Some np ->
        (exists time,
           Script.updateCountdown now (run Script_step ops st1)
           = (false, log (EvConsoleError ("Invalid time format: " ++ time))
                       (log EvTick (run Script_step ops st1))))
        \/ (exists r,
              remaining (run Script_step ops st1) now = Some r
              /\ (Script.updateCountdown now (run Script_step ops st1)).1 = true
              /\ countdownText (Script.updateCountdown now (run Script_step ops st1)).2
                 = Script.formatTimeRemaining (Int r))).
Proof.
  intros Hnamed Hstore.
  apply updatePrayerTimes_stocked in Hstore as [Hstocked Hnext].
  assert (named st1) as Hnamed1 by (unfold named in *; by rewrite Hnext).
  split; intros np Hnp.
  - destruct (run_keeps (fun s => stocked s /\ named s) Ui_step ops st1
                Ui_step_keeps_ready (conj Hstocked Hnamed1)) as [Hs Hn].
    destruct (ready_tick now _ np Hs Hn Hnp) as [(time & Hu & _)|(r & Hr & Hu & _)];
      [left; by exists time | right; by exists r].
  - destruct (run_keeps (fun s => stocked s /\ named s) Script_step ops st1
                Script_step_keeps_ready (conj Hstocked Hnamed1)) as [Hs Hn].
    destruct (ready_tick now _ np Hs Hn Hnp) as [(time & _ & Hu)|(r & Hr & _ & Hu)];
      [left; by exists time | right; by exists r].
Qed.

Lemma stored_timings_keep_ticks_available_witness :
  (exists time,
     Ui.updateCountdown (mkDate 4 0 2) resolved_day
     = (false, log (EvConsoleError ("Invalid time format: " ++ time))
                 (log EvTick resolved_day)))
  \/ (exists r,
        remaining resolved_day (mkDate 4 0 2) = Some r
        /\ Ui.updateCountdown (mkDate 4 0 2) resolved_day
           = (true, set_countdownText (formatTimeRemaining (Int r))
                      (log EvTick resolved_day))).
Proof.
  destruct (stored_timings_keep_ticks_available (timingsOf sample_day) initial
              (loaded sample_day) [OpResolve (mkDate 4 0 0); OpTick (mkDate 4 0 1)]
              (mkDate 4 0 2)) as [Hui _].
  - intros np. discriminate.
  - vm_compute. reflexivity.
  - eapply Hui. vm_compute. reflexivity.
Defined.

(** ** Fields [formatTime] does not read *)

(** X4.  [formatTime] reads the first two colon-separated fields only:
    whatever follows a second colon (seconds, for instance) does not
    change the entry. *)
Theorem formatTime_ignores_third_field (hh mm rest : string) :
  has_char ":" hh = false -> has_char ":" mm = false ->
  formatTime (hh ++ ":" ++ mm ++ ":" ++ rest) = formatTime (hh ++ ":" ++ mm).
Proof.
  intros Hhh Hmm. unfold formatTime.
  change (hh ++ ":" ++ mm ++ ":" ++ rest) with (hh ++ String ":" (mm ++ String ":" rest)).
  change (hh ++ ":" ++ mm) with (hh ++ String ":" mm).
  rewrite !(split_app_sep _ hh) by assumption.
  rewrite (split_app_sep _ mm) by assumption.
  rewrite (split_no_sep _ mm) by assumption.
  reflexivity.
Qed.

Lemma formatTime_ignores_third_field_witness :
  formatTime "05:30:45" = formatTime "05:30" /\ formatTime "05:30" = Normal "5:30 ص".
Proof.
  split; [|reflexivity].
  apply (formatTime_ignores_third_field "05" "30" "45"); reflexivity.
Defined.

(** ** The countdown string read back *)

Lemma reads_two_digits_range : forallb reads_two_digits (seqZ 0 100) = true.
Proof. vm_compute. reflexivity. Qed.

Lemma two_digits_read (n : Z) :
  0 <= n < 100 -> has_char ":" (two_digits n) = false /\ Number (two_digits n) = Int n.
Proof.
  intros Hn. pose proof reads_two_digits_range as H. rewrite forallb_forall in H.
  assert (reads_two_digits n = true) as Hok
    by (apply H, list_elem_of_In, elem_of_seqZ; lia).
  unfold reads_two_digits in Hok. apply andb_prop in Hok as [Hc Hnum].
  apply negb_true_iff in Hc. split; [exact Hc|].
  destruct (Number (two_digits n)) as [z|]; [|discriminate].
  f_equal. by apply Z.eqb_eq.
Qed.

(** X5.  Below a hundred hours the countdown string determines the
    seconds it was made from: reading its three fields back as hours,
    minutes and seconds gives the same number, so two different
    durations are never shown alike. *)
Theorem formatTimeRemaining_reads_back (seconds : Z) :
  0 <= seconds < 360000 ->
  readDuration (formatTimeRemaining (Int seconds)) = Int seconds
  /\ (forall other, 0 <= other < 360000 ->
        formatTimeRemaining (Int other) = formatTimeRemaining (Int seconds) ->
        other = seconds).
Proof.
  assert (forall s, 0 <= s < 360000 -> readDuration (formatTimeRemaining (Int s)) = Int s)
    as Hread.
  { intros s Hs. rewrite (formatTimeRemaining_HHMMSS s Hs). unfold HHMMSS, readDuration.
    assert (0 <= s / 3600 < 100) as H1
      by (split; [apply Z.div_pos; lia | apply Z.div_lt_upper_bound; lia]).
    pose proof (Z.mod_pos_bound s 3600 ltac:(lia)) as Hmod.
    assert (0 <= s mod 3600 / 60 < 100) as H2
      by (split; [apply Z.div_pos; lia | apply Z.div_lt_upper_bound; lia]).
    assert (0 <= s mod 60 < 100) as H3
      by (pose proof (Z.mod_pos_bound s 60 ltac:(lia)); lia).
    destruct (two_digits_read _ H1) as [C1 N1], (two_digits_read _ H2) as [C2 N2],
      (two_digits_read _ H3) as [C3 N3].
    change (two_digits (s / 3600) ++ ":" ++ two_digits (s mod 3600 / 60)
            ++ ":" ++ two_digits (s mod 60))
      with (two_digits (s / 3600)
            ++ String ":" (two_digits (s mod 3600 / 60) ++ String ":" (two_digits (s mod 60)))).
    rewrite (split_app_sep _ _ _ C1), (split_app_sep _ _ _ C2), (split_no_sep _ _ C3).
    cbn [map lookup list_lookup ToNumber]. rewrite N1, N2, N3. cbn [add mul]. f_equal.
    pose proof (Z.div_mod s 3600 ltac:(lia)).
    pose proof (Z.div_mod (s mod 3600) 60 ltac:(lia)).
    assert ((s mod 3600) mod 60 = s mod 60) as Hmm
      by (apply Z.mod_mod_divide; by exists 60).
    lia. }
  intros Hs. split; [by apply Hread|].
  intros other Ho Heq. apply Hread in Ho. rewrite Heq, (Hread _ Hs) in Ho. congruence.
Qed.

Lemma formatTimeRemaining_reads_back_witness :
  readDuration (formatTimeRemaining (Int 3661)) = Int 3661
  /\ (forall other, 0 <= other < 360000 ->
        formatTimeRemaining (Int other) = formatTimeRemaining (Int 3661) ->
        other = 3661).
Proof. apply (formatTimeRemaining_reads_back 3661). lia. Defined.

(** ** From a stored day to the countdown *)


Lemma first_after_is_found (d : DaySchedule) (now : Date) (st : State) :
  Forall valid_time (times d) -> prayerTimes st = scheduleOf d ->
  List.find (upcoming (prayerTimes st) (minuteOfDay now)) prayerOrder
  = firstAfter d (minuteOfDay now).
Proof.
  intros Hvalid Hst.
  pose proof (findNextPrayer_schedule d (minuteOfDay now) Hvalid) as Hscan.
  rewrite findNextPrayer_find in Hscan. injection Hscan as Hscan. by rewrite Hst.
Qed.

Lemma firstAfter_first_later (d : DaySchedule) (cur : Z) :
  match firstAfter d cur with
  | Some next =>
      exists i t,
        entries d !! i = Some (next, t) /\ cur < minutesOf t
        /\ (forall j q u, (j < i)%nat -> entries d !! j = Some (q, u) -> minutesOf u <= cur)
  | None => forall q u, (q, u) ∈ entries d -> minutesOf u <= cur
  end.
Proof.
  unfold firstAfter, entries.
  destruct (Z.ltb_spec cur (minutesOf (fajr d))) as [H0|H0].
  { exists 0%nat, (fajr d). repeat split; [exact H0|]. intros j q u Hj. lia. }
  destruct (Z.ltb_spec cur (minutesOf (sunrise d))) as [H1|H1].
  { exists 1%nat, (sunrise d). repeat split; [exact H1|]. intros j q u Hj Hlk.
    do 1 (destruct j as [|j]; [cbn in Hlk; injection Hlk as <- <-; lia|]). lia. }
  destruct (Z.ltb_spec cur (minutesOf (dhuhr d))) as [H2|H2].
  { exists 2%nat, (dhuhr d). repeat split; [exact H2|]. intros j q u Hj Hlk.
    do 2 (destruct j as [|j]; [cbn in Hlk; injection Hlk as <- <-; lia|]). lia. }
  destruct (Z.ltb_spec cur (minutesOf (asr d))) as [H3|H3].
  { exists 3%nat, (asr d). repeat split; [exact H3|]. intros j q u Hj Hlk.
    do 3 (destruct j as [|j]; [cbn in Hlk; injection Hlk as <- <-; lia|]). lia. }
  destruct (Z.ltb_spec cur (minutesOf (maghrib d))) as [H4|H4].
  { exists 4%nat, (maghrib d). repeat split; [exact H4|]. intros j q u Hj Hlk.
    do 4 (destruct j as [|j]; [cbn in Hlk; injection Hlk as <- <-; lia|]). lia. }
  destruct (Z.ltb_spec cur (minutesOf (isha d))) as [H5|H5].
  { exists 5%nat, (isha d). repeat split; [exact H5|]. intros j q u Hj Hlk.
    do 5 (destruct j as [|j]; [cbn in Hlk; injection Hlk as <- <-; lia|]). lia. }
  intros q u. rewrite !elem_of_cons, elem_of_nil.
  intros [H|[H|[H|[H|[H|[H|[]]]]]]]; injection H as -> ->; assumption.
Qed.

(** X6.  On any stored day of six valid times, in order or not, both
    versions resolve the same next prayer and highlight its predecessor
    in the fixed order.  The next prayer is the first one of the fixed
    order whose time is strictly after the current minute: every prayer
    before it in that order has a time that is not later than now,
    though a prayer after it may come sooner.  When no time is later
    than now, the next prayer is fajr. *)
Theorem next_is_first_later_in_fixed_order (d : DaySchedule) (now : Date) (st : State) :
  Forall valid_time (times d) -> prayerTimes st = scheduleOf d ->
  exists next current,
    predecessor next = Some current
    /\ resolved (Ui.updateNextPrayer now st) next current
    /\ resolved (Script.updateNextPrayer now st) next current
    /\ ((exists i t,
           entries d !! i = Some (next, t) /\ minuteOfDay now < minutesOf t
           /\ (forall j q u, (j < i)%nat -> entries d !! j = Some (q, u) ->
                  minutesOf u <= minuteOfDay now))
        \/ (next = "fajr"
            /\ forall q u, (q, u) ∈ entries d -> minutesOf u <= minuteOfDay now)).
Proof.
  intros Hvalid Hst.
  pose proof (first_after_is_found d now st Hvalid Hst) as Hfound.
  pose proof (scan_in_order (prayerTimes st) (minuteOfDay now)) as Hin.
  rewrite Hfound in Hin.
  destruct (currentPrayerName_predecessor _ Hin) as [_ [current Hcurrent]].
  exists (orFajr (firstAfter d (minuteOfDay now))), current.
  split; [exact Hcurrent|].
  destruct (resolve_schedule d now st current Hvalid Hst Hcurrent) as [Hui Hscript].
  split; [exact Hui|]. split; [exact Hscript|].
  pose proof (firstAfter_first_later d (minuteOfDay now)) as Hfirst.
  destruct (orFajr_found (firstAfter d (minuteOfDay now))) as [Hsome|[Hnone Hfajr]].
  - intros q Hq. rewrite <- Hfound in Hq.
    apply List.find_some in Hq as [Hq _]. by apply list_elem_of_In.
  - left. rewrite Hsome in Hfirst. exact Hfirst.
  - right. rewrite Hnone in Hfirst. by split.
Qed.

Lemma next_is_first_later_in_fixed_order_witness :
  minutesOf (asr swapped_day) < minutesOf (dhuhr swapped_day)
  /\ minuteOfDay (mkDate 10 0 0) < minutesOf (asr swapped_day)
  /\ exists current,
       resolved (Ui.updateNextPrayer (mkDate 10 0 0) (loaded swapped_day)) "dhuhr" current
       /\ resolved (Script.updateNextPrayer (mkDate 10 0 0) (loaded swapped_day))
            "dhuhr" current.
Proof.
  split; [reflexivity|]. split; [reflexivity|].
  destruct (next_is_first_later_in_fixed_order swapped_day (mkDate 10 0 0)
              (loaded swapped_day))
    as (next & current & _ & Hui & Hscript & Hfirst).
  - unfold times, swapped_day, valid_time. cbn.
    repeat (apply Forall_cons_2; [cbn; lia|]). apply Forall_nil_2.
  - vm_compute. reflexivity.
  - assert (next = "dhuhr") as ->.
    { destruct Hfirst as [(i & t & Hlk & Hlater & Hbefore)|[_ Hnone]].
      - destruct i as [|[|[|i]]].
        + injection Hlk as <- <-. vm_compute in Hlater. discriminate.
        + injection Hlk as <- <-. vm_compute in Hlater. discriminate.
        + by injection Hlk as <- <-.
        + specialize (Hbefore 2%nat "dhuhr" (mkTime 15 30)).
          assert (minutesOf (mkTime 15 30) <= minuteOfDay (mkDate 10 0 0)) as Hle
            by (apply Hbefore; [lia | reflexivity]).
          vm_compute in Hle. by destruct Hle.
      - specialize (Hnone "isha" (mkTime 19 30)).
        assert (minutesOf (mkTime 19 30) <= minuteOfDay (mkDate 10 0 0)) as Hle.
        { apply Hnone. unfold entries, swapped_day. cbn. rewrite !elem_of_cons. auto 10. }
        vm_compute in Hle. by destruct Hle. }
    exists current. by split.
Defined.





(** ** What the tick reports *)

Lemma digit_prefix_Some (s : string) (acc : Z) :
  exists z, digit_prefix s (Some acc) = Some z.
Proof.
  revert acc. induction s as [|c r IH]; intros acc; cbn [digit_prefix]; [by eexists|].
  destruct (digit c); [apply IH | by eexists].
Qed.

Lemma digit_prefix_first (s : string) :
  is_Some (digit_prefix s None) <-> digit_first s = true.
Proof.
  destruct s as [|c r]; cbn [digit_prefix digit_first].
  - split; [by intros [? [=]] | discriminate].
  - unfold digit, is_digit. destruct (_ && _).
    + split; [reflexivity|]. intros _. apply digit_prefix_Some.
    + split; [by intros [? [=]] | discriminate].
Qed.

(** [parseInt] gives a number exactly on the strings that begin with an
    integer. *)
Lemma parseInt_integer_first (s : string) :
  isNaN (parseInt (Some s)) = negb (integer_first s).
Proof.
  assert (forall r, isNaN (match digit_prefix r None with
                           | Some z => Int z
                           | None => NaN
                           end) = negb (digit_first r)) as Hdigits.
  { intros r. pose proof (digit_prefix_first r) as Hr.
    destruct (digit_prefix r None) as [z|], (digit_first r); try reflexivity.
    - destruct Hr as [Hr _]. by discriminate Hr.
    - destruct Hr as [_ Hr]. by destruct (Hr eq_refl). }
  assert (forall a, isNaN (neg a) = isNaN a) as Hneg by (by intros [z|]).
  unfold parseInt, integer_first. destruct (trimStart s) as [|c r]; [reflexivity|].
  destruct c as [[] [] [] [] [] [] [] []];
    cbn [without_sign]; rewrite ?Hneg; apply Hdigits.
Qed.

Lemma parseTarget_readable (entry : string) :
  if readable entry
  then exists hours minutes, parseTarget entry = Normal (inr (hours, minutes))
  else exists time, parseTarget entry = Normal (inl time).
Proof.
  unfold readable, parseTarget, hourField, minuteField.
  rewrite (split_first " "). js. rewrite (split_first ":"), (split_next ":").
  rewrite parseInt_integer_first.
  destruct (integer_first (before ":" (before " " entry))); cbn [negb orb andb];
    [|eexists; reflexivity].
  destruct (after ":" (before " " entry)) as [rest|]; cbn [fmap option_fmap option_map];
    [|eexists; reflexivity].
  rewrite parseInt_integer_first.
  destruct (integer_first (before ":" rest)); cbn [negb orb]; do 2 (try eexists); reflexivity.
Qed.

Lemma targetEntry_Some (st : State) (entry : string) :
  targetEntry st = Some entry ->
  exists np, nextPrayer st = Some np /\ prayerTimes st !! name np = Some entry
             /\ truthy_str (Some entry) = true.
Proof.
  unfold targetEntry. destruct (nextPrayer st) as [np|]; [|discriminate].
  destruct (prayerTimes st !! name np) as [e|] eqn:He; [|discriminate].
  destruct (String.eqb e "") eqn:Hempty; [discriminate|].
  intros [= <-]. exists np. cbn [truthy_str]. by rewrite Hempty.
Qed.

Lemma targetEntry_None (st : State) :
  targetEntry st = None ->
  forall np, nextPrayer st = Some np -> truthy_str (prayerTimes st !! name np) = false.
Proof.
  unfold targetEntry. intros H np Hnp. rewrite Hnp in H.
  destruct (prayerTimes st !! name np) as [e|]; [|reflexivity].
  cbn [truthy_str]. by destruct (String.eqb e "").
Qed.

(** X8.  What the tick reports depends on the stored entry of the next
    prayer alone, the same way in both versions.  With no next prayer,
    or no entry for it, or an empty one, the tick returns false and
    shows the sentinel.  With an entry whose hour field and minute field
    both begin with an integer (after white space and an optional sign),
    it returns true, whatever follows the digits and whatever the range
    of the numbers.  With any other entry it returns false and leaves
    the countdown as it was. *)
Theorem tick_succeeds_iff_entry_readable (now : Date) (st : State) :
  let ui := Ui.updateCountdown now st in
  let script := Script.updateCountdown now st in
  match targetEntry st with
  | None =>
      ui.1 = false /\ script.1 = false
      /\ countdownText ui.2 = "--:--:--" /\ countdownText script.2 = "--:--:--"
  | Some entry =>
      if readable entry then ui.1 = true /\ script.1 = true
      else ui.1 = false /\ script.1 = false
           /\ countdownText ui.2 = countdownText st
           /\ countdownText script.2 = countdownText st
  end.
Proof.
  intros ui script. subst ui script.
  destruct (targetEntry st) as [entry|] eqn:Htarget.
  - apply targetEntry_Some in Htarget as (np & Hnp & Hentry & Htruthy).
    pose proof (parseTarget_readable entry) as Hparse.
    destruct (readable entry).
    + destruct Hparse as (hours & minutes & Hparse).
      unfold Ui.updateCountdown, Script.updateCountdown, timeRemaining.
      cbn [nextPrayer prayerTimes log]. rewrite Hnp, Hentry.
      change (default "" (Some entry)) with entry. rewrite Htruthy, Hparse.
      split; reflexivity.
    + destruct Hparse as (time & Hparse).
      destruct (tick_with_unparseable_entry now st np entry time Hnp Hentry Htruthy Hparse)
        as [-> ->].
      by repeat split.
  - destruct (tick_without_entry now st (targetEntry_None st Htarget)) as [-> ->].
    by repeat split.
Qed.

Example readable_ex :
  map readable ["4:30 ص"; "4:30"; " 4 : 30x م"; "-4:+30"; "4:NaN ص"; "4 ص"; ":30 ص"; "4:"; ""]
  = [true; true; false; true; false; false; false; false; false].
Proof. vm_compute. reflexivity. Qed.

(** ** Teardown *)

Lemma cleanupUI_stops (st : State) :
  ticker_inv st ->
  tickers (cleanupUI st).2 = ∅ /\ countdownInterval (cleanupUI st).2 = None.
Proof.
  intros Hinv. unfold cleanupUI. cbn [snd].
  destruct (countdownInterval st) as [id|] eqn:Hid.
  - split; [|reflexivity].
    change (tickers (set_countdownInterval None (clearInterval id st)))
      with (tickers (clearInterval id st)).
    by apply tickers_clear.
  - split; [by apply tickers_none | exact Hid].
Qed.

Lemma stopped_inv (st : State) : tickers st = ∅ -> ticker_inv st.
Proof. intros H id t. by rewrite H, lookup_empty. Qed.

Lemma Ui_step_all_keeps_inv (op : UiOp) (st : State) :
  ticker_inv st -> ticker_inv (Ui_step_all op st).
Proof.
  intros Hinv. destruct op as [op|]; cbn [Ui_step_all].
  - by apply Ui_step_keeps_inv.
  - by apply stopped_inv, cleanupUI_stops.
Qed.

Lemma run_all_keeps_inv (ops : list UiOp) (st : State) :
  ticker_inv st -> ticker_inv (run_all ops st).
Proof.
  revert st. induction ops as [|op ops IH]; intros st Hinv; [exact Hinv|].
  cbn. by apply IH, Ui_step_all_keeps_inv.
Qed.

(** X9.  [cleanupUI] never returns normally: every call ends in the
    ReferenceError of its call to the undefined [getElements].  It
    throws only after it has stopped the countdown, though.  After any
    run of the operations of ui.js, teardowns included, at most one
    ticker is active; the state a teardown leaves has no ticker and no
    handle; a second teardown throws again and changes nothing more, as
    does a teardown with no ticker set; and a restart after a teardown
    leaves exactly one ticker. *)
Theorem cleanupUI_throws_after_stopping_the_ticker (ops : list UiOp) :
  let st := run_all ops initial in
  let after := (cleanupUI st).2 in
  (size (tickers st) <= 1)%nat
  /\ (cleanupUI st).1 = Throw "ReferenceError"
  /\ tickers after = ∅
  /\ countdownInterval after = None
  /\ cleanupUI after = (Throw "ReferenceError", after)
  /\ (countdownInterval st = None -> after = st)
  /\ (forall now, size (tickers (Ui.startCountdown now after)) = 1%nat).
Proof.
  intros st after.
  pose proof (run_all_keeps_inv ops initial ticker_inv_initial) as Hinv. fold st in Hinv.
  destruct (cleanupUI_stops st Hinv) as [Hnone Hhandle]. fold after in Hnone, Hhandle.
  split; [by apply ticker_inv_size|].
  split; [reflexivity|].
  split; [exact Hnone|]. split; [exact Hhandle|].
  split; [unfold cleanupUI at 1; by rewrite Hhandle|].
  split; [intros H; subst after; unfold cleanupUI; by rewrite H|].
  intros now. apply one_ticker_size.
  apply (startCountdown_one_ticker _ Ui_updateCountdown_frame), stopped_inv, Hnone.
Qed.

Lemma cleanupUI_throws_after_stopping_the_ticker_witness :
  let st := run_all [UiDo (OpStart (mkDate 4 0 0)); UiDo (OpTick (mkDate 4 0 1))] initial in
  size (tickers st) = 1%nat
  /\ (cleanupUI st).1 = Throw "ReferenceError"
  /\ tickers (cleanupUI st).2 = ∅
  /\ cleanupUI (cleanupUI st).2 = (Throw "ReferenceError", (cleanupUI st).2).
Proof.
  intros st.
  destruct (cleanupUI_throws_after_stopping_the_ticker
              [UiDo (OpStart (mkDate 4 0 0)); UiDo (OpTick (mkDate 4 0 1))])
    as (_ & Hthrow & Hnone & _ & Hidem & _).
  split; [vm_compute; reflexivity|]. by repeat split.
Defined.

(** ** The popup and its timeouts *)

Lemma UiPopup_hide_clears (p : Popup) :
  pending_inv p -> hideTimers (UiPopup.hideNotification p) = ∅.
Proof.
  intros Hinv. unfold UiPopup.hideNotification, clearTimeout.
  destruct (notificationTimeout p) as [id|] eqn:Hid; cbn.
  - apply set_eq. intros j. split; [|set_solver].
    intros [Hj Hne%not_elem_of_singleton]%elem_of_difference.
    apply Hinv in Hj. congruence.
  - apply set_eq. intros j. split; [|set_solver].
    intros Hj. apply Hinv in Hj. congruence.
Qed.

Lemma UiPopup_step_keeps_inv (op : PopupOp) (p : Popup) :
  pending_inv p -> pending_inv (UiPopup_step op p).
Proof.
  intros Hinv. destruct op as [msg type options| |id]; cbn [UiPopup_step].
  - unfold UiPopup.showNotification. destruct (is_error type); [exact Hinv|].
    intros j. unfold clearTimeout. destruct (notificationTimeout p) as [old|] eqn:Hold; cbn.
    + intros [->%elem_of_singleton|[Hj Hne%not_elem_of_singleton]%elem_of_difference]%elem_of_union;
        [reflexivity|]. apply Hinv in Hj. congruence.
    + intros [->%elem_of_singleton|Hj]%elem_of_union; [reflexivity|].
      apply Hinv in Hj. congruence.
  - intros j. rewrite (UiPopup_hide_clears p Hinv). set_solver.
  - unfold fire. case_bool_decide as Hid; [|exact Hinv].
    intros j. rewrite UiPopup_hide_clears; [set_solver|].
    intros k. cbn. intros [Hk _]%elem_of_difference. by apply Hinv.
Qed.

Lemma pending_inv_size (p : Popup) : pending_inv p -> (size (hideTimers p) <= 1)%nat.
Proof.
  intros Hinv. destruct (notificationTimeout p) as [id|] eqn:Hid.
  - assert (hideTimers p ⊆ {[ id ]}) as Hsub.
    { intros j Hj. apply Hinv in Hj. rewrite Hid in Hj. injection Hj as ->. set_solver. }
    apply subseteq_size in Hsub. by rewrite size_singleton in Hsub.
  - assert (hideTimers p = ∅) as ->.
    { apply set_eq. intros j. split; [|set_solver]. intros Hj. apply Hinv in Hj. congruence. }
    rewrite size_empty. lia.
Qed.

Lemma pending_inv_closed : pending_inv closed.
Proof. intros id Hid. cbn in Hid. set_solver. Qed.

Lemma popup_run_keeps (P : Popup -> Prop) (step : PopupOp -> Popup -> Popup)
    (ops : list PopupOp) (p : Popup) :
  (forall op p, P p -> P (step op p)) -> P p -> P (popup_run step ops p).
Proof.
  intros Hstep. revert p. induction ops as [|op ops IH]; intros p HP; [exact HP|].
  cbn. apply IH, Hstep, HP.
Qed.

(** X10.  In ui.js at most one timeout that closes the popup is pending
    at any time, whatever notifications are shown and closed and
    whichever timeouts come due; and once the popup is closed, by the
    user or by a timeout, none is pending. *)
Theorem popup_has_at_most_one_timeout (ops : list PopupOp) :
  let p := popup_run UiPopup_step ops closed in
  (size (hideTimers p) <= 1)%nat
  /\ hideTimers (UiPopup.hideNotification p) = ∅
  /\ (forall id, id ∈ hideTimers p -> hideTimers (fire UiPopup.hideNotification id p) = ∅).
Proof.
  intros p.
  assert (pending_inv p) as Hinv
    by (apply popup_run_keeps; [apply UiPopup_step_keeps_inv | apply pending_inv_closed]).
  split; [by apply pending_inv_size|].
  split; [by apply UiPopup_hide_clears|].
  intros id Hid. pose proof (UiPopup_step_keeps_inv (PFire id) p Hinv) as Hfire.
  cbn [UiPopup_step] in Hfire. unfold fire in *. rewrite bool_decide_eq_true_2 in * by done.
  apply UiPopup_hide_clears. intros k. cbn. intros [Hk _]%elem_of_difference. by apply Hinv.
Qed.

Lemma fires_without_timeouts (hide : Popup -> Popup) (step : PopupOp -> Popup -> Popup)
    (ids : list positive) (p : Popup) :
  (forall id q, step (PFire id) q = fire hide id q) ->
  hideTimers p = ∅ -> popup_run step (map PFire ids) p = p.
Proof.
  intros Hstep Hnone. induction ids as [|id ids IH]; [reflexivity|].
  cbn. rewrite Hstep. unfold fire. rewrite bool_decide_eq_false_2 by (rewrite Hnone; set_solver).
  exact IH.
Qed.

(** X11.  In ui.js an error notification sets no timeout of its own and
    cancels none.  Shown while no timeout is pending, it stays open
    whatever timeouts come due, until the user closes it.  Shown after a
    notification of another type, it is closed by the timeout that
    notification has left pending. *)
Theorem error_notification_and_timeouts (p : Popup) (msg err : string) (type : Kind)
    (options erropts : Options) (ids : list positive) :
  (hideTimers p = ∅ ->
   let q := UiPopup.showNotification err KError erropts p in
   popup_run UiPopup_step (map PFire ids) q = q
   /\ active q = true /\ message q = err)
  /\ (is_error type = false ->
      let q := UiPopup.showNotification err KError erropts
                 (UiPopup.showNotification msg type options p) in
      active q = true /\ message q = err
      /\ notificationTimeout q = Some (nextTimer p)
      /\ nextTimer p ∈ hideTimers q
      /\ active (fire UiPopup.hideNotification (nextTimer p) q) = false).
Proof.
  split.
  - intros Hnone q. subst q. split; [|by split].
    by apply (fires_without_timeouts UiPopup.hideNotification).
  - intros Htype q. subst q. unfold UiPopup.showNotification, fire.
    destruct type; try discriminate; cbn [is_error];
      destruct (notificationTimeout p) as [old|]; cbn;
      (split; [reflexivity|]); (split; [reflexivity|]); (split; [reflexivity|]);
      (split; [set_solver|]);
      rewrite bool_decide_eq_true_2 by set_solver; reflexivity.
Qed.

Lemma error_notification_and_timeouts_witness :
  let alone := UiPopup.showNotification "offline" KError no_options closed in
  let after := UiPopup.showNotification "offline" KError no_options
                 (UiPopup.showNotification "saved" KSuccess no_options closed) in
  (popup_run UiPopup_step (map PFire [1; 2; 3]%positive) alone = alone /\ active alone = true)
  /\ (active after = true /\ message after = "offline"
      /\ active (fire UiPopup.hideNotification 1 after) = false).
Proof.
  intros alone after.
  destruct (error_notification_and_timeouts closed "saved" "offline" KSuccess
              no_options no_options [1; 2; 3]%positive) as [Halone Hafter].
  destruct (Halone eq_refl) as (H1 & H2 & _).
  destruct (Hafter eq_refl) as (H3 & H4 & _ & _ & H5).
  repeat split; assumption.
Defined.

Lemma ScriptPopup_show_drawn (msg : string) (type : Kind) (p : Popup) :
  drawn p ->
  drawn (ScriptPopup.showNotification msg type p)
  /\ size (hideTimers (ScriptPopup.showNotification msg type p)) = S (size (hideTimers p)).
Proof.
  intros Hdrawn. unfold ScriptPopup.showNotification, drawn. cbn. split.
  - intros id [->%elem_of_singleton|Hid%Hdrawn]%elem_of_union; lia.
  - rewrite size_union, size_singleton; [reflexivity|].
    intros id ->%elem_of_singleton Hid%Hdrawn. lia.
Qed.

(** X12.  In the script every notification sets a timeout and nothing
    ever cancels one: after n notifications n more timeouts are pending,
    and a notification shown after the user has closed an earlier one is
    closed by the timeout the earlier one has left behind. *)
Theorem script_timeouts_accumulate (p : Popup) (shown : list (string * Kind))
    (first second : string) (k1 k2 : Kind) :
  drawn p ->
  size (hideTimers
          (popup_run ScriptPopup_step (map (fun m => PShow m.1 m.2 no_options) shown) p))
  = (size (hideTimers p) + length shown)%nat
  /\ (let q := ScriptPopup.showNotification second k2
                 (ScriptPopup.hideNotification (ScriptPopup.showNotification first k1 p)) in
      active q = true /\ message q = second
      /\ nextTimer p ∈ hideTimers q
      /\ active (fire ScriptPopup.hideNotification (nextTimer p) q) = false).
Proof.
  intros Hdrawn. split.
  - revert p Hdrawn. induction shown as [|[m k] rest IH]; intros p Hdrawn; [cbn; lia|].
    cbn [map popup_run fold_left ScriptPopup_step fst snd].
    destruct (ScriptPopup_show_drawn m k p Hdrawn) as [Hd Hsize].
    fold (popup_run ScriptPopup_step (map (fun m => PShow m.1 m.2 no_options) rest)
            (ScriptPopup.showNotification m k p)).
    rewrite (IH _ Hd), Hsize. cbn [length]. lia.
  - intros q. subst q. unfold ScriptPopup.showNotification, ScriptPopup.hideNotification, fire.
    cbn. repeat split; [set_solver|].
    rewrite bool_decide_eq_true_2 by set_solver. reflexivity.
Qed.

Lemma script_timeouts_accumulate_witness :
  size (hideTimers
          (popup_run ScriptPopup_step
             [PShow "a" KInfo no_options; PShow "b" KError no_options;
              PShow "c" KWarning no_options] closed)) = 3%nat
  /\ (let q := ScriptPopup.showNotification "second" KError
                 (ScriptPopup.hideNotification
                    (ScriptPopup.showNotification "first" KInfo closed)) in
      active q = true /\ message q = "second"
      /\ 1%positive ∈ hideTimers q
      /\ active (fire ScriptPopup.hideNotification 1 q) = false).
Proof.
  apply (script_timeouts_accumulate closed
           [("a", KInfo); ("b", KError); ("c", KWarning)] "first" "second" KInfo KError).
  intros id Hid. cbn in Hid. set_solver.
Defined.

(** ** The theme *)

Lemma updateThemeButton_matches (p : ThemePage) :
  button_matches (updateThemeButton p)
  /\ dataTheme (updateThemeButton p) = dataTheme p
  /\ localStorage (updateThemeButton p) = localStorage p.
Proof.
  unfold updateThemeButton, button_matches.
  destruct (str_eq (dataTheme p) "dark") eqn:Hdark; cbn [dataTheme sunDisplay moonDisplay localStorage];
    rewrite Hdark; by repeat split.
Qed.

(** X13.  After [toggleTheme] the theme is dark or light, it is what
    local storage holds under "theme", the button matches it, and no
    other key of the storage has changed.  From dark or light a second
    toggle gives the first theme back; from any other value, or with no
    attribute set, the toggle goes to dark. *)
Theorem toggleTheme_flips_and_saves (p : ThemePage) :
  let q := toggleTheme p in
  (dataTheme q = Some "dark" \/ dataTheme q = Some "light")
  /\ localStorage q !! "theme" = dataTheme q
  /\ button_matches q
  /\ (forall key, key <> "theme" -> localStorage q !! key = localStorage p !! key)
  /\ (dataTheme p = Some "dark" \/ dataTheme p = Some "light" ->
      dataTheme (toggleTheme q) = dataTheme p)
  /\ (dataTheme p <> Some "dark" -> dataTheme q = Some "dark").
Proof.
  intros q. subst q. unfold toggleTheme, updateThemeButton, button_matches.
  destruct (str_eq (dataTheme p) "dark") eqn:Hdark; cbn.
  - repeat split; auto.
    + by rewrite lookup_insert_eq.
    + intros key Hkey. by rewrite lookup_insert_ne.
    + intros _. destruct (dataTheme p) as [t|]; [|discriminate].
      cbn in Hdark. by apply String.eqb_eq in Hdark as ->.
    + intros Hne. exfalso. apply Hne. destruct (dataTheme p) as [t|]; [|discriminate].
      cbn in Hdark. by apply String.eqb_eq in Hdark as ->.
  - repeat split; auto.
    + by rewrite lookup_insert_eq.
    + intros key Hkey. by rewrite lookup_insert_ne.
    + intros [H|H]; rewrite H in *; [discriminate | reflexivity].
Qed.

Lemma toggleTheme_flips_and_saves_witness :
  dataTheme (toggleTheme (toggleTheme (mkThemePage (Some "light") ∅ "" "" "")))
  = Some "light".
Proof.
  destruct (toggleTheme_flips_and_saves (mkThemePage (Some "light") ∅ "" "" ""))
    as (_ & _ & _ & _ & Hback & _).
  apply Hback. right. reflexivity.
Defined.

(** X14.  [initTheme] takes a saved theme as it is whenever one is
    stored and not empty, and the system preference otherwise; it writes
    nothing to the storage and leaves the button matching the theme.  So
    a theme chosen with the toggle survives a reload, whatever the
    system prefers. *)
Theorem initTheme_restores_saved_theme (systemPrefersDark : bool) (p : ThemePage) :
  let q := initTheme systemPrefersDark p in
  (forall saved, localStorage p !! "theme" = Some saved -> saved <> "" ->
     dataTheme q = Some saved)
  /\ (localStorage p !! "theme" = None \/ localStorage p !! "theme" = Some "" ->
      dataTheme q = Some (if systemPrefersDark then "dark" else "light"))
  /\ localStorage q = localStorage p
  /\ button_matches q
  /\ dataTheme (initTheme systemPrefersDark (fresh_page (localStorage (toggleTheme p))))
     = dataTheme (toggleTheme p).
Proof.
  intros q. subst q. unfold initTheme.
  match goal with
  | |- context [updateThemeButton ?x] =>
      destruct (updateThemeButton_matches x) as (Hb & Ht & Hs)
  end.
  split; [|split; [|split; [|split]]].
  - intros saved Hsaved Hne. rewrite Ht, Hsaved. cbn [dataTheme truthy_str].
    apply String.eqb_neq in Hne. by rewrite Hne.
  - intros [Hsaved|Hsaved]; rewrite Ht, Hsaved; reflexivity.
  - by rewrite Hs.
  - exact Hb.
  - unfold toggleTheme, fresh_page.
    repeat match goal with
    | |- context [updateThemeButton ?x] =>
        let H := fresh in
        let H' := fresh in
        destruct (updateThemeButton_matches x) as (_ & H & H');
        rewrite ?H, ?H'; clear H H'
    end.
    cbn [dataTheme localStorage]. rewrite lookup_insert_eq.
    by destruct (str_eq (dataTheme p) "dark").
Qed.

Lemma initTheme_restores_saved_theme_witness :
  dataTheme (initTheme false (fresh_page {[ "theme" := "dark" ]})) = Some "dark".
Proof.
  destruct (initTheme_restores_saved_theme false (fresh_page {[ "theme" := "dark" ]}))
    as (Hsaved & _).
  apply Hsaved; [reflexivity | discriminate].
Defined.

(** ** Saved preferences *)

Lemma truthy_json_city (c : option json) :
  truthy_json
    (Some (if truthy_json c then default JNull c else city defaultPrefs)) = true.
Proof.
  destruct (truthy_json c) eqn:Hc; [|reflexivity].
  destruct c as [v|]; [exact Hc | discriminate].
Qed.

(** X15.  [loadPreferences] of storage.js never fails and never gives
    an unusable city: whatever is stored and whatever the parser does
    with it, the city of the result is truthy.  With nothing stored,
    with an empty text, with a text the parser rejects, and with a text
    that parses to anything but an object (to [null], where reading the
    property throws, as well), the result is exactly the defaults,
    [Cairo,EG] with audio off. *)
Theorem loadPreferences_always_usable
    (JSON_parse : string -> completion json) (storage : gmap string string) :
  let prefs := Prefs.loadPreferences JSON_parse storage in
  truthy_json (Some (city prefs)) = true
  /\ (truthy_str (storage !! PREFS_KEY) = false -> prefs = defaultPrefs)
  /\ (forall saved,
        storage !! PREFS_KEY = Some saved ->
        (exists e, JSON_parse saved = Throw e)
        \/ (exists v, JSON_parse saved = Normal v /\ forall fields, v <> JObj fields) ->
        prefs = defaultPrefs).
Proof.
  intros prefs. subst prefs. unfold Prefs.loadPreferences.
  split; [|split].
  - destruct (truthy_str (storage !! PREFS_KEY)); cbn [negb]; js; [|reflexivity].
    destruct (JSON_parse _) as [v|e]; [|reflexivity].
    destruct v; cbn [property]; try reflexivity.
    apply truthy_json_city.
  - by intros ->.
  - intros saved Hsaved Hcase. rewrite Hsaved.
    destruct (truthy_str (Some saved)); cbn [negb]; js; [|reflexivity].
    change (default "" (Some saved)) with saved.
    destruct Hcase as [[e He]|(v & Hv & Hobj)].
    + by rewrite He.
    + rewrite Hv. destruct v; try reflexivity. by destruct (Hobj fields).
Qed.

Lemma loadPreferences_always_usable_witness :
  Prefs.loadPreferences sample_parse {[ PREFS_KEY := "{city" ]} = defaultPrefs.
Proof.
  destruct (loadPreferences_always_usable sample_parse {[ PREFS_KEY := "{city" ]})
    as (_ & _ & Hbad).
  apply (Hbad "{city"); [reflexivity|].
  left. exists "SyntaxError". reflexivity.
Defined.

(** X16.  Saving and loading with storage.js: when the parser reads the
    saved text back as the object that was written, [loadPreferences]
    returns the saved audio setting unchanged and the saved city, except
    that a falsy city (an empty one, say) comes back as [Cairo,EG].
    Saving touches no other key of the storage. *)
Theorem saved_preferences_load_back
    (JSON_stringify : json -> string) (JSON_parse : string -> completion json)
    (savedCity savedAudio : json) (storage : gmap string string) :
  let preferences := JObj [("city", savedCity); ("audioEnabled", savedAudio)] in
  let storage' := Prefs.savePreferences JSON_stringify savedCity savedAudio storage in
  truthy_str (Some (JSON_stringify preferences)) = true ->
  JSON_parse (JSON_stringify preferences) = Normal preferences ->
  Prefs.loadPreferences JSON_parse storage'
  = mkPreferences
      (if truthy_json (Some savedCity) then savedCity else JStr "Cairo,EG") savedAudio
  /\ (forall key, key <> PREFS_KEY -> storage' !! key = storage !! key).
Proof.
  intros preferences storage' Htext Hparse. subst storage'.
  unfold Prefs.loadPreferences, Prefs.savePreferences. split.
  - rewrite lookup_insert_eq. fold preferences. rewrite Htext. cbn [negb]. js.
    change (default "" (Some (JSON_stringify preferences)))
      with (JSON_stringify preferences).
    rewrite Hparse. reflexivity.
  - intros key Hkey. by rewrite lookup_insert_ne.
Qed.

Lemma saved_preferences_load_back_witness :
  Prefs.loadPreferences sample_parse
    (Prefs.savePreferences sample_stringify (JStr "Makkah,SA") (JBool true) ∅)
  = mkPreferences (JStr "Makkah,SA") (JBool true)
  /\ (forall key, key <> PREFS_KEY ->
        Prefs.savePreferences sample_stringify (JStr "Makkah,SA") (JBool true) ∅ !! key
        = (∅ : gmap string string) !! key).
Proof.
  apply (saved_preferences_load_back sample_stringify sample_parse
           (JStr "Makkah,SA") (JBool true) ∅); reflexivity.
Defined.

Lemma written_read_back (c a : option json) :
  field_of (ScriptPrefs.written [("city", c); ("isAudioEnabled", a)]) "city" = c
  /\ field_of (ScriptPrefs.written [("city", c); ("isAudioEnabled", a)]) "isAudioEnabled" = a
  /\ field_of (ScriptPrefs.written [("city", c); ("isAudioEnabled", a)]) "audioEnabled" = None.
Proof. by destruct c, a. Qed.

(** X17.  The script's own pair: when the parser reads the saved text
    back as the object that was written, its [loadPreferences] sets the
    two variables to exactly what its [savePreferences] wrote (an empty
    city stays empty, an [undefined] variable stays [undefined]) and
    mutes the button exactly when the saved audio setting is falsy.
    With nothing stored, or an empty text, it leaves the variables and
    the button as they are.  It catches nothing: a text the parser
    rejects makes it throw what the parser threw, and a text that parses
    to [null] makes it throw a [TypeError]. *)
Theorem script_preferences_load_back
    (JSON_stringify : json -> string) (JSON_parse : string -> completion json)
    (saved : ScriptPrefs.Vars) (storage : gmap string string) (vars : ScriptPrefs.Vars) :
  let preferences := ScriptPrefs.preferencesOf saved in
  (truthy_str (Some (JSON_stringify preferences)) = true ->
   JSON_parse (JSON_stringify preferences) = Normal preferences ->
   ScriptPrefs.loadPreferences JSON_parse
     (ScriptPrefs.savePreferences JSON_stringify saved storage) vars
   = Normal (ScriptPrefs.mkVars (ScriptPrefs.currentCity saved)
               (ScriptPrefs.isAudioEnabled saved)
               (negb (truthy_json (ScriptPrefs.isAudioEnabled saved)))))
  /\ (truthy_str (storage !! PREFS_KEY) = false ->
      ScriptPrefs.loadPreferences JSON_parse storage vars = Normal vars)
  /\ (forall text e,
        storage !! PREFS_KEY = Some text -> text <> "" ->
        JSON_parse text = Throw e ->
        ScriptPrefs.loadPreferences JSON_parse storage vars = Throw e)
  /\ (forall text,
        storage !! PREFS_KEY = Some text -> text <> "" ->
        JSON_parse text = Normal JNull ->
        ScriptPrefs.loadPreferences JSON_parse storage vars = Throw TypeError).
Proof.
  intros preferences.
  unfold ScriptPrefs.loadPreferences, ScriptPrefs.savePreferences.
  split; [|split; [|split]].
  - intros Htext Hparse. rewrite lookup_insert_eq. fold preferences.
    rewrite Htext. js.
    change (default "" (Some (JSON_stringify preferences)))
      with (JSON_stringify preferences).
    rewrite Hparse. subst preferences. unfold ScriptPrefs.preferencesOf.
    cbn [bind property].
    destruct (written_read_back (ScriptPrefs.currentCity saved)
                (ScriptPrefs.isAudioEnabled saved)) as (-> & -> & _).
    reflexivity.
  - by intros ->.
  - intros text e Hsaved Hne Hparse. rewrite Hsaved. cbn [truthy_str].
    apply String.eqb_neq in Hne. rewrite Hne. cbn [negb]. js.
    change (default "" (Some text)) with text. by rewrite Hparse.
  - intros text Hsaved Hne Hparse. rewrite Hsaved. cbn [truthy_str].
    apply String.eqb_neq in Hne. rewrite Hne. cbn [negb]. js.
    change (default "" (Some text)) with text. by rewrite Hparse.
Qed.

Lemma script_preferences_load_back_witness :
  ScriptPrefs.loadPreferences sample_parse
    (ScriptPrefs.savePreferences sample_stringify script_vars ∅) script_muted
  = Normal script_vars.
Proof.
  destruct (script_preferences_load_back sample_stringify sample_parse script_vars ∅
              script_muted) as (Hback & _).
  apply Hback; reflexivity.
Defined.

(** X18.  The two versions share the storage key but not the field
    name of the audio setting.  Preferences saved by the script are
    loaded by storage.js with the audio setting reset to off, whatever
    was saved (the city is kept when truthy); preferences saved by
    storage.js are loaded by the script with the city kept, the audio
    variable [undefined] and the button muted. *)
Theorem audio_setting_lost_across_versions
    (JSON_stringify : json -> string) (JSON_parse : string -> completion json)
    (saved : ScriptPrefs.Vars) (savedCity savedAudio : json)
    (storage : gmap string string) (vars : ScriptPrefs.Vars) :
  let byScript := ScriptPrefs.preferencesOf saved in
  let byModule := JObj [("city", savedCity); ("audioEnabled", savedAudio)] in
  (truthy_str (Some (JSON_stringify byScript)) = true ->
   JSON_parse (JSON_stringify byScript) = Normal byScript ->
   Prefs.loadPreferences JSON_parse
     (ScriptPrefs.savePreferences JSON_stringify saved storage)
   = mkPreferences
       (if truthy_json (ScriptPrefs.currentCity saved)
        then default JNull (ScriptPrefs.currentCity saved) else JStr "Cairo,EG")
       (JBool false))
  /\ (truthy_str (Some (JSON_stringify byModule)) = true ->
      JSON_parse (JSON_stringify byModule) = Normal byModule ->
      ScriptPrefs.loadPreferences JSON_parse
        (Prefs.savePreferences JSON_stringify savedCity savedAudio storage) vars
      = Normal (ScriptPrefs.mkVars (Some savedCity) None true)).
Proof.
  intros byScript byModule.
  unfold Prefs.loadPreferences, ScriptPrefs.loadPreferences,
    Prefs.savePreferences, ScriptPrefs.savePreferences.
  split; intros Htext Hparse; rewrite lookup_insert_eq.
  - fold byScript. rewrite Htext. cbn [negb]. js.
    change (default "" (Some (JSON_stringify byScript))) with (JSON_stringify byScript).
    rewrite Hparse. subst byScript. unfold ScriptPrefs.preferencesOf.
    cbn [bind property].
    destruct (written_read_back (ScriptPrefs.currentCity saved)
                (ScriptPrefs.isAudioEnabled saved)) as (-> & _ & ->).
    reflexivity.
  - fold byModule. rewrite Htext. js.
    change (default "" (Some (JSON_stringify byModule))) with (JSON_stringify byModule).
    rewrite Hparse. reflexivity.
Qed.

Lemma audio_setting_lost_across_versions_witness :
  Prefs.loadPreferences sample_parse
    (ScriptPrefs.savePreferences sample_stringify script_vars ∅)
  = mkPreferences (JStr "Makkah,SA") (JBool false).
Proof.
  destruct (audio_setting_lost_across_versions sample_stringify sample_parse
              script_vars (JStr "Makkah,SA") (JBool true) ∅ script_muted)
    as (Hlost & _).
  apply Hlost; reflexivity.
Defined.

(** X19.  [toggleAudio] of app.js turns the setting into the boolean
    opposite of its truthiness, mutes the button exactly when the
    setting is now off, starts the athan once exactly when it is now on,
    and leaves the city alone.  The new setting is what a reload sees:
    when the parser reads the saved text back as written,
    [loadPreferences] returns it, next to the current city (or
    [Cairo,EG] while the city is still empty). *)
Theorem toggleAudio_persists_setting
    (JSON_stringify : json -> string) (JSON_parse : string -> completion json)
    (vars : App.Vars) (storage : gmap string string) :
  let enabled := negb (truthy_json (Some (App.isAudioEnabled vars))) in
  let preferences := JObj [("city", App.currentCity vars); ("audioEnabled", JBool enabled)] in
  let after := App.toggleAudio JSON_stringify vars storage in
  truthy_str (Some (JSON_stringify preferences)) = true ->
  JSON_parse (JSON_stringify preferences) = Normal preferences ->
  App.isAudioEnabled after.1 = JBool enabled
  /\ App.muted after.1 = negb enabled
  /\ App.athanPlays after.1 = (App.athanPlays vars + if enabled then 1 else 0)%nat
  /\ App.currentCity after.1 = App.currentCity vars
  /\ Prefs.loadPreferences JSON_parse after.2
     = mkPreferences
         (if truthy_json (Some (App.currentCity vars)) then App.currentCity vars
          else JStr "Cairo,EG")
         (JBool enabled).
Proof.
  intros enabled preferences after Htext Hparse. subst after.
  unfold App.toggleAudio. fold enabled. cbn [fst snd App.isAudioEnabled App.muted
    App.athanPlays App.currentCity].
  repeat split.
  - destruct enabled; lia.
  - unfold Prefs.loadPreferences, Prefs.savePreferences.
    rewrite lookup_insert_eq. fold preferences. rewrite Htext. cbn [negb]. js.
    change (default "" (Some (JSON_stringify preferences)))
      with (JSON_stringify preferences).
    rewrite Hparse. reflexivity.
Qed.

Lemma toggleAudio_persists_setting_witness :
  App.isAudioEnabled (App.toggleAudio sample_stringify app_muted ∅).1 = JBool true
  /\ App.muted (App.toggleAudio sample_stringify app_muted ∅).1 = false
  /\ App.athanPlays (App.toggleAudio sample_stringify app_muted ∅).1 = 1%nat
  /\ App.currentCity (App.toggleAudio sample_stringify app_muted ∅).1 = JStr "Makkah,SA"
  /\ Prefs.loadPreferences sample_parse (App.toggleAudio sample_stringify app_muted ∅).2
     = mkPreferences (JStr "Makkah,SA") (JBool true).
Proof.
  apply (toggleAudio_persists_setting sample_stringify sample_parse app_muted ∅);
    reflexivity.
Defined.

(** X20.  [toggleAudio] of the script flips the setting the same way
    and mutes the button exactly when the setting is now off; a second
    toggle brings back the truthiness the setting had.  When the parser
    reads the saved text back as written, the script's [loadPreferences]
    restores the variables and the button exactly as the toggle left
    them. *)
Theorem script_toggleAudio_persists_setting
    (JSON_stringify : json -> string) (JSON_parse : string -> completion json)
    (vars other : ScriptPrefs.Vars) (storage : gmap string string) :
  let after := ScriptPrefs.toggleAudio JSON_stringify vars storage in
  let preferences := ScriptPrefs.preferencesOf after.1 in
  truthy_str (Some (JSON_stringify preferences)) = true ->
  JSON_parse (JSON_stringify preferences) = Normal preferences ->
  truthy_json (ScriptPrefs.isAudioEnabled after.1)
  = negb (truthy_json (ScriptPrefs.isAudioEnabled vars))
  /\ ScriptPrefs.muted after.1 = truthy_json (ScriptPrefs.isAudioEnabled vars)
  /\ ScriptPrefs.currentCity after.1 = ScriptPrefs.currentCity vars
  /\ truthy_json
       (ScriptPrefs.isAudioEnabled (ScriptPrefs.toggleAudio JSON_stringify after.1 after.2).1)
     = truthy_json (ScriptPrefs.isAudioEnabled vars)
  /\ ScriptPrefs.loadPreferences JSON_parse after.2 other = Normal after.1.
Proof.
  intros after preferences Htext Hparse. subst preferences after.
  unfold ScriptPrefs.toggleAudio in *.
  cbn [fst snd ScriptPrefs.isAudioEnabled ScriptPrefs.muted ScriptPrefs.currentCity
    truthy_json] in *.
  split; [reflexivity|]. split; [by rewrite negb_involutive|].
  split; [reflexivity|]. split; [by rewrite negb_involutive|].
  set (saved := ScriptPrefs.mkVars _ _ _) in *.
  unfold ScriptPrefs.loadPreferences, ScriptPrefs.savePreferences.
  rewrite lookup_insert_eq, Htext. js.
  change (default "" (Some ?x)) with x.
  rewrite Hparse. unfold ScriptPrefs.preferencesOf. cbn [bind property].
  destruct (written_read_back (ScriptPrefs.currentCity saved)
              (ScriptPrefs.isAudioEnabled saved)) as (-> & -> & _).
  reflexivity.
Qed.

Lemma script_toggleAudio_persists_setting_witness :
  ScriptPrefs.loadPreferences sample_parse
    (ScriptPrefs.toggleAudio sample_stringify script_muted ∅).2 script_muted
  = Normal script_vars.
Proof.
  destruct (script_toggleAudio_persists_setting sample_stringify sample_parse
              script_muted script_muted ∅) as (_ & _ & _ & _ & Hload);
    [reflexivity | reflexivity |].
  exact Hload.
Defined.
